(** * QCmanager: flag lifecycle and distributed report of the UFO QC filters

    A shallow embedding of [src/ufo/filters/QCmanager.cc]: the constructor
    (missing-data initializer), [postFilter] (post-evaluation updater) and
    [print] (distributed reporter), with the properties of the
    specification stated against them. *)

From Stdlib Require Import ZArith List Lia SpecFloat.
From stdpp Require Import base list strings pretty.

Local Open Scope Z_scope.

(** ** Machine types *)

(** [int] flags are compared and copied only, never computed with; [size_t]
    counters are 64-bit unsigned and wrap around on overflow. *)
Definition int := Z.
Definition size_t := Z.
Definition wrap64 (x : Z) : size_t := x mod 2 ^ 64.

(** IEEE-754 values; [==] on them is [SFeqb], which is not reflexive on
    NaN. *)
Definition float := spec_float.
Definition double := spec_float.

(** ** Failure *)

(** [ASSERT] throws; dereferencing an empty [shared_ptr] and indexing a
    [std::vector] outside its range are undefined behaviour, which the model
    turns into explicit failures instead of inventing a value. *)
Inductive error :=
| AssertionFailed (cond : string)
| NullPointer
| OutOfRange.

Inductive result (A : Type) :=
| Ok (a : A)
| Err (e : error).
Arguments Ok {A} a.
Arguments Err {A} e.

Definition and_then {A B} (r : result A) (k : A -> result B) : result B :=
  match r with
  | Ok a => k a
  | Err e => Err e
  end.

Notation "'do' x <- e ; k" := (and_then e (fun x => k))
  (at level 10, x name, e at level 100, k at level 200).

Definition ASSERT (cond : bool) (text : string) : result unit :=
  if cond then Ok tt else Err (AssertionFailed text).

Definition is_ok {A} (r : result A) : bool :=
  match r with Ok _ => true | Err _ => false end.

(** [for (size_t i = 0; i < n; ++i) body]: iterations [0 .. n-1] in order,
    left as soon as one of them fails. *)
Fixpoint for_loop {S} (n : nat) (body : nat -> S -> result S) (s : S) : result S :=
  match n with
  | O => Ok s
  | Datatypes.S k => do s' <- for_loop k body s; body k s'
  end.

(** ** The ioda containers the filter works on *)

Module ObsDataVector.
(** [ioda::ObsDataVector<T>]: [nvars_] rows of [nlocs_] values each. *)
Record t (T : Type) := mk {
  obstype : string;
  nvars_ : nat;
  nlocs_ : nat;
  rows_ : list (list T)
}.
Arguments mk {T}.
Arguments obstype {T}.
Arguments nvars_ {T}.
Arguments nlocs_ {T}.
Arguments rows_ {T}.

Definition nvars {T} (v : t T) : nat := nvars_ v.
Definition nlocs {T} (v : t T) : nat := nlocs_ v.

(** The class invariant of ioda: the storage has the declared shape. *)
Definition well_shaped {T} (v : t T) : bool :=
  (length (rows_ v) =? nvars_ v)%nat
  && forallb (fun r : list T => (length r =? nlocs_ v)%nat) (rows_ v).

(** The contents of cell [(jv, jobs)], if the storage has one. *)
Definition cell {T} (v : t T) (jv jobs : nat) : option T :=
  match rows_ v !! jv with
  | Some r => r !! jobs
  | None => None
  end.

(** [v[jv][jobs]] read. *)
Definition get {T} (v : t T) (jv jobs : nat) : result T :=
  match cell v jv jobs with
  | Some x => Ok x
  | None => Err OutOfRange
  end.

(** [v[jv][jobs] = x]. *)
Definition set {T} (v : t T) (jv jobs : nat) (x : T) : result (t T) :=
  match rows_ v !! jv with
  | Some r =>
      if (jobs <? length r)%nat
      then Ok (mk (obstype v) (nvars_ v) (nlocs_ v)
                  (<[jv := <[jobs := x]> r]> (rows_ v)))
      else Err OutOfRange
  | None => Err OutOfRange
  end.
End ObsDataVector.

Module Comm.
(** [eckit::mpi::Comm] as seen from one worker: its rank, and the flag
    matrices of the other workers of the communicator, which run the same
    program on their own shards and contribute to every collective. *)
Record t := mk {
  rank : nat;
  peers : list (ObsDataVector.t int)
}.
End Comm.

Module ObsSpace.
(** [ioda::ObsSpace]: the shard held by this worker.  [get_db group var]
    gives the value stored for each of the [nlocs] locations. *)
Record t := mk {
  obsname : string;
  nlocs : nat;
  obsvariables : list string;
  get_db : string -> string -> nat -> float;
  comm : Comm.t
}.
End ObsSpace.

(** [ioda::ObsDataVector<float>(obsdb, vars, group)]: one row per variable,
    filled with the [nlocs] values the observation space holds. *)
Definition ObsDataVector_from (obsdb : ObsSpace.t) (vars : list string)
    (group : string) : ObsDataVector.t float :=
  ObsDataVector.mk (ObsSpace.obsname obsdb) (length vars) (ObsSpace.nlocs obsdb)
    (map (fun var => map (ObsSpace.get_db obsdb group var)
                         (seq 0 (ObsSpace.nlocs obsdb))) vars).

(** [ioda::ObsVector]: a flat vector of doubles, [hofx[i]] read. *)
Definition ObsVector := list double.

Definition ObsVector_get (hofx : ObsVector) (i : nat) : result double :=
  match (hofx : list double) !! i with
  | Some x => Ok x
  | None => Err OutOfRange
  end.

(** [oops::Variables], [observed_[jj]]. *)
Definition Variables := list string.

Definition Variables_get (vars : Variables) (jj : nat) : result string :=
  match (vars : list string) !! jj with
  | Some x => Ok x
  | None => Err OutOfRange
  end.

(** ** The flag codes *)

Module QCflags.
(** The constants of [ufo/filters/QCflags.h].  That header is not part of
    the sources at hand, so the codes are a parameter of the development;
    what a property needs of them is stated where it is needed. *)
Record codes := mk {
  pass : int;
  missing : int;
  preQC : int;
  bounds : int;
  domain : int;
  black : int;
  Hfailed : int;
  thinned : int;
  fguess : int
}.

(** Every raw code the reporter has a counter for. *)
Definition recognized (Q : codes) : list int :=
  [pass Q; missing Q; preQC Q; bounds Q; domain Q; black Q; Hfailed Q;
   fguess Q; thinned Q; 76; 77].

Definition is_recognized (Q : codes) (f : int) : bool :=
  existsb (Z.eqb f) (recognized Q).

(** The codes name different dispositions. *)
Definition distinct (Q : codes) : bool :=
  bool_decide (NoDup (recognized Q)).
End QCflags.

(** ** The filter object *)

Definition Configuration := string.

(** The members of [QCmanager] except [flags_]: that one is a reference to
    the caller's shared flag matrix, so the matrix is passed to and returned
    from every operation instead of being copied into the object. *)
Record QCmanager := mkQCmanager {
  obsdb_ : ObsSpace.t;
  config_ : Configuration;
  nogeovals_ : Variables;
  observed_ : Variables
}.

(** The counters of one pass of [print] over a variable. *)
Module Counts.
Record t := mk {
  iobs : size_t;
  ipass : size_t;
  imiss : size_t;
  ipreq : size_t;
  ibnds : size_t;
  iwhit : size_t;
  iblck : size_t;
  iherr : size_t;
  ifgss : size_t;
  ignss : size_t;
  ithin : size_t
}.
End Counts.

(** The stream [print] writes to, one entry per [std::endl]. *)
Definition ostream := list string.

(** [boost::shared_ptr<T>], possibly empty. *)
Definition shared_ptr (T : Type) := option T.

(** Every worker evaluates the collective on its own contribution; all
    receive the sum, in [size_t] arithmetic. *)
Definition add64 (a b : size_t) : size_t := wrap64 (a + b).

Definition allReduceInPlace (others : list size_t) (x : size_t) : size_t :=
  fold_left add64 others x.

Definition sumZ (l : list Z) : Z := fold_right Z.add 0 l.

Definition weight (b : bool) : Z := if b then 1 else 0.

Fixpoint mapM {A B} (f : A -> result B) (l : list A) : result (list B) :=
  match l with
  | [] => Ok []
  | a :: l' => do b <- f a; do bs <- mapM f l'; Ok (b :: bs)
  end.

(** The two logs of oops the filter writes to: [oops::Log::trace()] and
    [oops::Log::info()]. *)
Module Log.
Record t := mk {
  trace : ostream;
  info : ostream
}.
End Log.

Definition trace_line (text : string) (log : Log.t) : Log.t :=
  Log.mk (Log.trace log ++ [text]) (Log.info log).

(** ** Relating two states of a matrix *)

(** Same name, same declared shape, same number of rows. *)
Definition same_frame {T} (a b : ObsDataVector.t T) : Prop :=
  ObsDataVector.obstype a = ObsDataVector.obstype b
  /\ ObsDataVector.nvars_ a = ObsDataVector.nvars_ b
  /\ ObsDataVector.nlocs_ a = ObsDataVector.nlocs_ b
  /\ length (ObsDataVector.rows_ a) = length (ObsDataVector.rows_ b).

(** [b] is [a] with [upd] applied to the cells of [region], and to no
    other cell. *)
Definition rewritten {T} (region : nat -> nat -> bool) (upd : nat -> nat -> T -> T)
    (a b : ObsDataVector.t T) : Prop :=
  same_frame a b
  /\ forall jv jobs,
       ObsDataVector.cell b jv jobs
       = (fun f => if region jv jobs then upd jv jobs f else f)
           <$> ObsDataVector.cell a jv jobs.

(** The storage has every cell of an [nv] by [nl] matrix. *)
Definition covers {T} (nv nl : nat) (v : ObsDataVector.t T) : Prop :=
  forall jv jobs, (jv < nv)%nat -> (jobs < nl)%nat ->
    is_Some (ObsDataVector.cell v jv jobs).

Definition at_cell (jv jobs : nat) : nat -> nat -> bool :=
  fun a b => (a =? jv)%nat && (b =? jobs)%nat.

Definition block (nv nl : nat) : nat -> nat -> bool :=
  fun a b => (a <? nv)%nat && (b <? nl)%nat.

(** ** Sample data

    A code table with [pass] as the zero state, sentinels, and the small
    shards of scenarios A to E of the specification; the examples at the
    end of the file evaluate the filter on them. *)

Definition sample_codes : QCflags.codes := QCflags.mk 0 1 2 3 4 5 6 7 10.

Definition sample_imiss : int := -2147483643.
Definition sample_rmiss : float := S754_finite true 16777215 104.
Definition sample_dmiss : double := S754_finite true 9007199254740991 971.

Definition f_one : float := S754_finite false 8388608 (-23).
Definition f_two : float := S754_finite false 8388608 (-22).
Definition f_tenth : float := S754_finite false 13421773 (-27).
Definition d_five : double := S754_finite false 5629499534213120 (-50).

Definition sample_comm : Comm.t := Comm.mk 0 [].

(** Scenario A: one variable, three records, the second observed value
    missing. *)
Definition obsdb_A : ObsSpace.t :=
  ObsSpace.mk "Radiosonde" 3 ["air_temperature"]
    (fun _ _ jobs => nth jobs [f_one; sample_rmiss; f_two] f_one) sample_comm.

Definition flags_A : ObsDataVector.t int :=
  ObsDataVector.mk "Radiosonde" 1 3 [[0; 0; 0]].

Definition obserr_A : ObsDataVector.t float :=
  ObsDataVector.mk "Radiosonde" 1 3 [[f_tenth; f_tenth; sample_rmiss]].

Definition self_A : QCmanager := mkQCmanager obsdb_A "" [] ["air_temperature"].

Definition flags_A' : ObsDataVector.t int :=
  ObsDataVector.mk "Radiosonde" 1 3 [[0; 1; 1]].

Definition hofx_B : ObsVector := [d_five; d_five; sample_dmiss].

(** Scenario C: one variable, two records, the first simulated value
    missing. *)
Definition obsdb_C : ObsSpace.t :=
  ObsSpace.mk "Radiosonde" 2 ["air_temperature"] (fun _ _ _ => f_one) sample_comm.

Definition self_C : QCmanager := mkQCmanager obsdb_C "" [] ["air_temperature"].

Definition flags_C : ObsDataVector.t int :=
  ObsDataVector.mk "Radiosonde" 1 2 [[0; 0]].

Definition hofx_C : ObsVector := [sample_dmiss; d_five].

(** Scenario D: two variables listed, error estimates shaped for three. *)
Definition obsdb_D : ObsSpace.t :=
  ObsSpace.mk "Radiosonde" 1 ["eastward_wind"; "northward_wind"]
    (fun _ _ _ => f_one) sample_comm.

Definition flags_D : ObsDataVector.t int :=
  ObsDataVector.mk "Radiosonde" 2 1 [[0]; [0]].

Definition obserr_D : ObsDataVector.t float :=
  ObsDataVector.mk "Radiosonde" 3 1 [[f_tenth]; [f_tenth]; [f_tenth]].

(** A matrix a collaborator has pre-seeded: the first record was rejected
    by pre QC before the filter is built. *)
Definition flags_P : ObsDataVector.t int :=
  ObsDataVector.mk "Radiosonde" 1 3 [[2; 0; 0]].

Definition flags_P' : ObsDataVector.t int :=
  ObsDataVector.mk "Radiosonde" 1 3 [[2; 1; 1]].

(** Scenario E: a raw code no counter exists for. *)
Definition flags_E : ObsDataVector.t int :=
  ObsDataVector.mk "Radiosonde" 1 2 [[0; 99]].

(** Two workers: this one has rank 1 and a clean shard, the worker of rank 0
    holds the shard of scenario E. *)
Definition obsdb_M : ObsSpace.t :=
  ObsSpace.mk "Radiosonde" 2 ["air_temperature"] (fun _ _ _ => f_one)
    (Comm.mk 1 [flags_E]).

Definition self_M : QCmanager := mkQCmanager obsdb_M "" [] ["air_temperature"].

(** The communicator of [self_M] seen from its other worker, of rank 0. *)
Definition obsdb_M0 : ObsSpace.t :=
  ObsSpace.mk "Radiosonde" 2 ["air_temperature"] (fun _ _ _ => f_one)
    (Comm.mk 0 [flags_C]).

Definition self_M0 : QCmanager := mkQCmanager obsdb_M0 "" [] ["air_temperature"].

Definition hofx_none : ObsVector := [d_five; d_five].

Definition log_0 : Log.t := Log.mk [] [].

(** Scenario C after [postFilter], and a second vector for it. *)
Definition flags_C' : ObsDataVector.t int :=
  ObsDataVector.mk "Radiosonde" 1 2 [[6; 0]].

Definition hofx_C2 : ObsVector := [d_five; sample_dmiss].




(** An empty shard with two variables. *)
Definition obsdb_0 : ObsSpace.t :=
  ObsSpace.mk "Radiosonde" 0 ["eastward_wind"; "northward_wind"]
    (fun _ _ _ => f_one) sample_comm.

Definition flags_0 : ObsDataVector.t int :=
  ObsDataVector.mk "Radiosonde" 2 0 [[]; []].

Definition obserr_0 : ObsDataVector.t float :=
  ObsDataVector.mk "Radiosonde" 2 0 [[]; []].

Section Filter.

(** [util::missingValue] of oops at the three types used; [dmiss] is the
    local [missing] of [postFilter]. *)
Variable imiss : int.
Variable rmiss : float.
Variable dmiss : double.
Variable Q : QCflags.codes.

(** *** The constructor: missing-data initializer *)

(** The test of line 57, with the short-circuit of [||]. *)
Definition is_missing (flags : ObsDataVector.t int)
    (obs obserr : ObsDataVector.t float) (jv jobs : nat) : result bool :=
  do f <- ObsDataVector.get flags jv jobs;
  if f =? imiss then Ok true
  else
    do o <- ObsDataVector.get obs jv jobs;
    if SFeqb o rmiss then Ok true
    else
      do e <- ObsDataVector.get obserr jv jobs;
      Ok (SFeqb e rmiss).

Definition init_cell (obs obserr : ObsDataVector.t float) (jv jobs : nat)
    (flags : ObsDataVector.t int) : result (ObsDataVector.t int) :=
  do c <- is_missing flags obs obserr jv jobs;
  if c then ObsDataVector.set flags jv jobs (QCflags.missing Q) else Ok flags.

(** Lines 55-61. *)
Definition init_pass (nv nl : nat) (obs obserr : ObsDataVector.t float)
    (flags : ObsDataVector.t int) : result (ObsDataVector.t int) :=
  for_loop nv (fun jv => for_loop nl (init_cell obs obserr jv)) flags.

(** [QCmanager::QCmanager].  The result is the new object together with
    the contents of [*qcflags] when the constructor returns. *)
Definition QCmanager_ctor (obsdb : ObsSpace.t) (config : Configuration)
    (qcflags : shared_ptr (ObsDataVector.t int))
    (obserr : shared_ptr (ObsDataVector.t float))
    : result (QCmanager * ObsDataVector.t int) :=
  let observed := ObsSpace.obsvariables obsdb in
  match qcflags with
  | None => Err NullPointer
  | Some flags =>
    match obserr with
    | None => Err (AssertionFailed "obserr")
    | Some err =>
      do _ <- ASSERT (ObsDataVector.nvars flags =? length observed)%nat
                     "flags_.nvars() == observed_.size()";
      do _ <- ASSERT (ObsDataVector.nlocs flags =? ObsSpace.nlocs obsdb)%nat
                     "flags_.nlocs() == obsdb_.nlocs()";
      do _ <- ASSERT (ObsDataVector.nvars err =? length observed)%nat
                     "obserr->nvars() == observed_.size()";
      do _ <- ASSERT (ObsDataVector.nlocs err =? ObsSpace.nlocs obsdb)%nat
                     "obserr->nlocs() == obsdb_.nlocs()";
      let obs := ObsDataVector_from obsdb observed "ObsValue" in
      do flags' <- init_pass (length observed) (ObsSpace.nlocs obsdb) obs err flags;
      Ok (mkQCmanager obsdb config [] observed, flags')
    end
  end.

(** *** [postFilter]: post-evaluation updater *)

(** Sizes and indices are [nat]: they address containers that exist in
    memory, so [observed_.size() * jobs + jv] does not wrap. *)
Definition update_cell (nv : nat) (hofx : ObsVector) (jv jobs : nat)
    (flags : ObsDataVector.t int) : result (ObsDataVector.t int) :=
  let iobs := (nv * jobs + jv)%nat in
  do f <- ObsDataVector.get flags jv jobs;
  if f =? 0 then
    do h <- ObsVector_get hofx iobs;
    if SFeqb h dmiss
    then ObsDataVector.set flags jv jobs (QCflags.Hfailed Q)
    else Ok flags
  else Ok flags.

Definition postFilter (self : QCmanager) (hofx : ObsVector)
    (flags : ObsDataVector.t int) : result (ObsDataVector.t int) :=
  let nv := length (observed_ self) in
  for_loop nv (fun jv =>
    for_loop (ObsSpace.nlocs (obsdb_ self)) (update_cell nv hofx jv)) flags.

(** *** [print]: distributed reporter *)

Definition bump (hit : bool) (n : size_t) : size_t :=
  if hit then add64 n 1 else n.

(** Lines 109-118: ten independent tests, each with a counter of its own. *)
Definition count_flag (f : int) (c : Counts.t) : Counts.t :=
  Counts.mk
    (Counts.iobs c)
    (bump (f =? QCflags.pass Q) (Counts.ipass c))
    (bump (f =? QCflags.missing Q) (Counts.imiss c))
    (bump (f =? QCflags.preQC Q) (Counts.ipreq c))
    (bump (f =? QCflags.bounds Q) (Counts.ibnds c))
    (bump (f =? QCflags.domain Q) (Counts.iwhit c))
    (bump (f =? QCflags.black Q) (Counts.iblck c))
    (bump (f =? QCflags.Hfailed Q) (Counts.iherr c))
    (bump (f =? QCflags.fguess Q) (Counts.ifgss c))
    (bump ((f =? 76) || (f =? 77)) (Counts.ignss c))
    (bump (f =? QCflags.thinned Q) (Counts.ithin c)).

(** Lines 96-119 on one worker whose shard has [nl] locations. *)
Definition local_counts (nl : nat) (flags : ObsDataVector.t int) (jj : nat)
    : result Counts.t :=
  for_loop nl
    (fun jobs c => do f <- ObsDataVector.get flags jj jobs; Ok (count_flag f c))
    (Counts.mk (Z.of_nat nl) 0 0 0 0 0 0 0 0 0 0).

(** What the other workers put into the collectives for variable [jj]:
    their constructors have checked [flags_.nlocs() == obsdb_.nlocs()]. *)
Definition peer_counts (comm : Comm.t) (jj : nat) : result (list Counts.t) :=
  mapM (fun pf => local_counts (ObsDataVector.nlocs pf) pf jj) (Comm.peers comm).

(** Lines 121-131. *)
Definition reduce_counts (ps : list Counts.t) (c : Counts.t) : Counts.t :=
  Counts.mk
    (allReduceInPlace (map Counts.iobs ps) (Counts.iobs c))
    (allReduceInPlace (map Counts.ipass ps) (Counts.ipass c))
    (allReduceInPlace (map Counts.imiss ps) (Counts.imiss c))
    (allReduceInPlace (map Counts.ipreq ps) (Counts.ipreq c))
    (allReduceInPlace (map Counts.ibnds ps) (Counts.ibnds c))
    (allReduceInPlace (map Counts.iwhit ps) (Counts.iwhit c))
    (allReduceInPlace (map Counts.iblck ps) (Counts.iblck c))
    (allReduceInPlace (map Counts.iherr ps) (Counts.iherr c))
    (allReduceInPlace (map Counts.ifgss ps) (Counts.ifgss c))
    (allReduceInPlace (map Counts.ignss ps) (Counts.ignss c))
    (allReduceInPlace (map Counts.ithin ps) (Counts.ithin c)).

Definition global_counts (self : QCmanager) (flags : ObsDataVector.t int)
    (jj : nat) : result Counts.t :=
  do c <- local_counts (ObsSpace.nlocs (obsdb_ self)) flags jj;
  do ps <- peer_counts (ObsSpace.comm (obsdb_ self)) jj;
  Ok (reduce_counts ps c).

(** [if (n > 0) os << info << n << text << std::endl;] *)
Definition emit_if_positive (info : string) (n : size_t) (text : string)
    (os : ostream) : ostream :=
  if 0 <? n then os ++ [info +:+ pretty n +:+ text] else os.

Definition summary_line (info : string) (g : Counts.t) : string :=
  info +:+ pretty (Counts.ipass g) +:+ " passed out of "
       +:+ pretty (Counts.iobs g) +:+ " observations.".

(** Lines 135-144. *)
Definition report (info : string) (g : Counts.t) (os : ostream) : ostream :=
  let os := emit_if_positive info (Counts.imiss g) " missing values." os in
  let os := emit_if_positive info (Counts.ipreq g) " rejected by pre QC." os in
  let os := emit_if_positive info (Counts.ibnds g) " out of bounds." os in
  let os := emit_if_positive info (Counts.iwhit g) " out of domain of use." os in
  let os := emit_if_positive info (Counts.iblck g) " black-listed." os in
  let os := emit_if_positive info (Counts.iherr g) " H(x) failed." os in
  let os := emit_if_positive info (Counts.ithin g) " removed by thinning." os in
  let os := emit_if_positive info (Counts.ifgss g)
              " rejected by first-guess check." os in
  let os := emit_if_positive info (Counts.ignss g)
              " rejected by GNSSRO reality check." os in
  os ++ [summary_line info g].

(** The left-hand side of the assertion of line 147. *)
Definition category_sum (g : Counts.t) : size_t :=
  add64 (add64 (add64 (add64 (add64 (add64 (add64 (add64 (add64
    (Counts.ipass g) (Counts.imiss g)) (Counts.ipreq g)) (Counts.ibnds g))
    (Counts.iwhit g)) (Counts.iblck g)) (Counts.iherr g)) (Counts.ithin g))
    (Counts.ifgss g)) (Counts.ignss g).

Definition complete (g : Counts.t) : bool := category_sum g =? Counts.iobs g.

(** Lines 133-145: what the worker writes for a variable. *)
Definition emit (self : QCmanager) (flags : ObsDataVector.t int) (jj : nat)
    (g : Counts.t) (os : ostream) : result ostream :=
  if (Comm.rank (ObsSpace.comm (obsdb_ self)) =? 0)%nat then
    do name <- Variables_get (observed_ self) jj;
    let info := "QC " +:+ ObsDataVector.obstype flags +:+ " " +:+ name +:+ ": " in
    Ok (report info g os)
  else Ok os.

(** The body of the loop of [print]: the stream as the iteration leaves
    it, and whether the iteration completed. *)
Definition print_var (self : QCmanager) (flags : ObsDataVector.t int)
    (jj : nat) (os : ostream) : ostream * result unit :=
  match global_counts self flags jj with
  | Err e => (os, Err e)
  | Ok g =>
    match emit self flags jj g os with
    | Err e => (os, Err e)
    | Ok os' =>
      (os', ASSERT (complete g)
              "ipass + imiss + ipreq + ibnds + iwhit + iblck + iherr + ithin + ifgss + ignss == iobs")
    end
  end.

(** A loop whose body writes to the stream; what was written before a
    failure stays written. *)
Fixpoint print_loop (n : nat) (body : nat -> ostream -> ostream * result unit)
    (os : ostream) : ostream * result unit :=
  match n with
  | O => (os, Ok tt)
  | Datatypes.S k =>
      match print_loop k body os with
      | (os', Ok _) => body k os'
      | (os', Err e) => (os', Err e)
      end
  end.

(** [QCmanager::print]. *)
Definition print (self : QCmanager) (flags : ObsDataVector.t int)
    (os : ostream) : ostream * result unit :=
  print_loop (length (observed_ self)) (print_var self flags) os.

(** *** Notions the properties are stated with *)

(** The outcome of the test of line 57 on a cell holding [f]. *)
Definition missing_cond (obs obserr : ObsDataVector.t float) (jv jobs : nat)
    (f : int) : bool :=
  (f =? imiss)
  || from_option (fun o => SFeqb o rmiss) false (ObsDataVector.cell obs jv jobs)
  || from_option (fun e => SFeqb e rmiss) false (ObsDataVector.cell obserr jv jobs).

(** The outcome of the test of line 76 on a cell holding [f]. *)
Definition failed_cond (nv : nat) (hofx : ObsVector) (jv jobs : nat)
    (f : int) : bool :=
  (f =? 0)
  && from_option (fun h => SFeqb h dmiss) false
       ((hofx : list double) !! (nv * jobs + jv)%nat).

(** What the initializer and the updater leave in a cell that held [f]. *)
Definition init_upd (obs obserr : ObsDataVector.t float) (jv jobs : nat)
    (f : int) : int :=
  if missing_cond obs obserr jv jobs f then QCflags.missing Q else f.

Definition fail_upd (nv : nat) (hofx : ObsVector) (jv jobs : nat)
    (f : int) : int :=
  if failed_cond nv hofx jv jobs f then QCflags.Hfailed Q else f.

(** The shapes of the flag matrix, of the observed values and of the error
    estimates are the same, and there is one row per observed variable. *)
Definition dims_agree (obsdb : ObsSpace.t) (flags : ObsDataVector.t int)
    (obserr : ObsDataVector.t float) : bool :=
  let observed := ObsSpace.obsvariables obsdb in
  let obs := ObsDataVector_from obsdb observed "ObsValue" in
  (ObsDataVector.nvars flags =? ObsDataVector.nvars obs)%nat
  && (ObsDataVector.nlocs flags =? ObsDataVector.nlocs obs)%nat
  && (ObsDataVector.nvars flags =? ObsDataVector.nvars obserr)%nat
  && (ObsDataVector.nlocs flags =? ObsDataVector.nlocs obserr)%nat
  && (ObsDataVector.nvars flags =? length observed)%nat.

(** The flag matrix a filter object was built on. *)
Definition fits (self : QCmanager) (flags : ObsDataVector.t int) : bool :=
  ObsDataVector.well_shaped flags
  && (ObsDataVector.nvars flags =? length (observed_ self))%nat
  && (ObsDataVector.nlocs flags =? ObsSpace.nlocs (obsdb_ self))%nat.

(** The two operations that write flags, in any number and order. *)
Inductive op :=
| Initialize (obsdb : ObsSpace.t) (config : Configuration)
             (obserr : shared_ptr (ObsDataVector.t float))
| Update (self : QCmanager) (hofx : ObsVector).

Definition run_op (o : op) (flags : ObsDataVector.t int)
    : result (ObsDataVector.t int) :=
  match o with
  | Initialize obsdb config obserr =>
      do r <- QCmanager_ctor obsdb config (Some flags) obserr; Ok (snd r)
  | Update self hofx => postFilter self hofx flags
  end.

Fixpoint run_ops (ops : list op) (flags : ObsDataVector.t int)
    : result (ObsDataVector.t int) :=
  match ops with
  | [] => Ok flags
  | o :: ops' => do flags' <- run_op o flags; run_ops ops' flags'
  end.

(** The part of row [jj] the counting loop of a worker with [nl] locations
    goes through. *)
Definition column (nl : nat) (flags : ObsDataVector.t int) (jj : nat) : list int :=
  take nl (default [] (ObsDataVector.rows_ flags !! jj)).

(** How many entries of a column pass a test. *)
Definition hits (p : int -> bool) (col : list int) : Z :=
  sumZ (map (fun f => weight (p f)) col).

(** The counters of a worker after its counting loop over a column. *)
Definition tally (nl : nat) (col : list int) : Counts.t :=
  fold_left (fun c f => count_flag f c) col
    (Counts.mk (Z.of_nat nl) 0 0 0 0 0 0 0 0 0 0).

(** All workers of the communicator, this one first: the bound of the
    counting loop and the matrix of each. *)
Definition shards (self : QCmanager) (flags : ObsDataVector.t int)
    : list (nat * ObsDataVector.t int) :=
  (ObsSpace.nlocs (obsdb_ self), flags)
  :: map (fun pf => (ObsDataVector.nlocs pf, pf))
         (Comm.peers (ObsSpace.comm (obsdb_ self))).

Definition columns (self : QCmanager) (flags : ObsDataVector.t int) (jj : nat)
    : list (list int) :=
  map (fun s => column (fst s) (snd s) jj) (shards self flags).

(** The number of records of all workers together. *)
Definition records (self : QCmanager) (flags : ObsDataVector.t int) : Z :=
  sumZ (map (fun s => Z.of_nat (fst s)) (shards self flags)).

(** The matrices of the other workers have the shape their constructors
    checked. *)
Definition peers_fit (self : QCmanager) : bool :=
  forallb (fun pf => ObsDataVector.well_shaped pf
                     && (ObsDataVector.nvars pf =? length (observed_ self))%nat)
          (Comm.peers (ObsSpace.comm (obsdb_ self))).

(** The nine category lines of the report, in the order of lines 135-143:
    the count each is guarded by and the text that follows the count. *)
Definition categories (g : Counts.t) : list (size_t * string) :=
  [(Counts.imiss g, " missing values.");
   (Counts.ipreq g, " rejected by pre QC.");
   (Counts.ibnds g, " out of bounds.");
   (Counts.iwhit g, " out of domain of use.");
   (Counts.iblck g, " black-listed.");
   (Counts.iherr g, " H(x) failed.");
   (Counts.ithin g, " removed by thinning.");
   (Counts.ifgss g, " rejected by first-guess check.");
   (Counts.ignss g, " rejected by GNSSRO reality check.")].

(** What the worker writes for variable [jj], and whether the assertion
    that follows holds. *)
Definition emitted (self : QCmanager) (flags : ObsDataVector.t int) (jj : nat)
    : list string :=
  match global_counts self flags jj with
  | Ok g => match emit self flags jj g [] with Ok l => l | Err _ => [] end
  | Err _ => []
  end.

Definition checked (self : QCmanager) (flags : ObsDataVector.t int) (jj : nat)
    : bool :=
  match global_counts self flags jj with
  | Ok g => complete g
  | Err _ => false
  end.

(** The reading of the specification in which the completeness check
    comes first: an iteration whose check fails has written nothing. *)
Definition checked_before_emitting (self : QCmanager)
    (flags : ObsDataVector.t int) (jj : nat) (os : ostream) : Prop :=
  checked self flags jj = false -> fst (print_var self flags jj os) = os.

(** The ten tests of the counting loop, summed over a measure [h] of how
    often a test holds; and the global count of a test over all workers. *)
Definition category_hits (h : (int -> bool) -> Z) : Z :=
  h (fun f => f =? QCflags.pass Q) + h (fun f => f =? QCflags.missing Q)
  + h (fun f => f =? QCflags.preQC Q) + h (fun f => f =? QCflags.bounds Q)
  + h (fun f => f =? QCflags.domain Q) + h (fun f => f =? QCflags.black Q)
  + h (fun f => f =? QCflags.Hfailed Q) + h (fun f => f =? QCflags.thinned Q)
  + h (fun f => f =? QCflags.fguess Q) + h (fun f => (f =? 76) || (f =? 77)).

Definition ghits (self : QCmanager) (flags : ObsDataVector.t int) (jj : nat)
    (p : int -> bool) : Z :=
  sumZ (map (hits p) (columns self flags jj)).

(** *** The operations with their trace lines, and the destructor *)

(** [QCmanager::QCmanager], lines 34-64.  The members are initialized, with
    [*qcflags] dereferenced, before the first trace line is written. *)
Definition QCmanager_ctor_traced (obsdb : ObsSpace.t) (config : Configuration)
    (qcflags : shared_ptr (ObsDataVector.t int))
    (obserr : shared_ptr (ObsDataVector.t float)) (log : Log.t)
    : Log.t * result (QCmanager * ObsDataVector.t int) :=
  match qcflags with
  | None => (log, Err NullPointer)
  | Some _ =>
    let log1 := trace_line ("QCmanager::QCmanager starting " +:+ config) log in
    match QCmanager_ctor obsdb config qcflags obserr with
    | Ok r => (trace_line "QCmanager::QCmanager done" log1, Ok r)
    | Err e => (log1, Err e)
    end
  end.

(** [QCmanager::postFilter], lines 68-82. *)
Definition postFilter_traced (self : QCmanager) (hofx : ObsVector)
    (flags : ObsDataVector.t int) (log : Log.t)
    : Log.t * result (ObsDataVector.t int) :=
  let log1 := trace_line "QCmanager postFilter" log in
  match postFilter self hofx flags with
  | Ok flags' => (trace_line "QCmanager postFilter done" log1, Ok flags')
  | Err e => (log1, Err e)
  end.

(** [QCmanager::~QCmanager], lines 86-90: the object is written to the info
    log, which runs [print] on it. *)
Definition QCmanager_dtor (self : QCmanager) (flags : ObsDataVector.t int)
    (log : Log.t) : Log.t * result unit :=
  let log1 := trace_line "QCmanager::~QCmanager starting" log in
  match print self flags (Log.info log1) with
  | (i, Ok _) =>
      (trace_line "QCmanager::~QCmanager done" (Log.mk (Log.trace log1) i), Ok tt)
  | (i, Err e) => (Log.mk (Log.trace log1) i, Err e)
  end.

(** Every cell of the matrix holds a code the reporter has a counter for. *)
Definition all_recognized (flags : ObsDataVector.t int) : Prop :=
  forall jv jobs f,
    ObsDataVector.cell flags jv jobs = Some f -> QCflags.is_recognized Q f = true.

(** The global counters when nothing wraps: the number of records and, for
    each test of the counting loop, the number of cells of all workers that
    pass it. *)
Definition exact_counts (self : QCmanager) (flags : ObsDataVector.t int)
    (jj : nat) : Counts.t :=
  Counts.mk
    (records self flags)
    (ghits self flags jj (fun f => f =? QCflags.pass Q))
    (ghits self flags jj (fun f => f =? QCflags.missing Q))
    (ghits self flags jj (fun f => f =? QCflags.preQC Q))
    (ghits self flags jj (fun f => f =? QCflags.bounds Q))
    (ghits self flags jj (fun f => f =? QCflags.domain Q))
    (ghits self flags jj (fun f => f =? QCflags.black Q))
    (ghits self flags jj (fun f => f =? QCflags.Hfailed Q))
    (ghits self flags jj (fun f => f =? QCflags.fguess Q))
    (ghits self flags jj (fun f => (f =? 76) || (f =? 77)))
    (ghits self flags jj (fun f => f =? QCflags.thinned Q)).

(** The eleven counters, and a record of counters given counter by
    counter. *)
Definition counters : list (Counts.t -> Z) :=
  [Counts.iobs; Counts.ipass; Counts.imiss; Counts.ipreq; Counts.ibnds;
   Counts.iwhit; Counts.iblck; Counts.iherr; Counts.ifgss; Counts.ignss;
   Counts.ithin].

Definition counts_of (F : (Counts.t -> Z) -> Z) : Counts.t :=
  Counts.mk (F Counts.iobs) (F Counts.ipass) (F Counts.imiss) (F Counts.ipreq)
    (F Counts.ibnds) (F Counts.iwhit) (F Counts.iblck) (F Counts.iherr)
    (F Counts.ifgss) (F Counts.ignss) (F Counts.ithin).

(** ** Loops *)

Lemma for_loop_partial {S} (P : nat -> S -> Prop) n body (s s' : S) :
  for_loop n body s = Ok s' ->
  P 0%nat s ->
  (forall i t t', (i < n)%nat -> P i t -> body i t = Ok t' -> P (Datatypes.S i) t') ->
  P n s'.
Proof.
  revert s'. induction n as [|n IH]; intros s' Hrun H0 Hstep; simpl in Hrun.
  - by injection Hrun as <-.
  - destruct (for_loop n body s) as [t|e] eqn:E; simpl in Hrun; [|discriminate].
    apply (Hstep n t s'); [lia| |done].
    apply IH; [done..|]. intros i u u' Hi. apply Hstep. lia.
Qed.

Lemma for_loop_total {S} (P : nat -> S -> Prop) n body (s : S) :
  P 0%nat s ->
  (forall i t, (i < n)%nat -> P i t ->
     exists t', body i t = Ok t' /\ P (Datatypes.S i) t') ->
  exists s', for_loop n body s = Ok s' /\ P n s'.
Proof.
  intros H0 Hstep. induction n as [|n IH]; simpl.
  - by exists s.
  - destruct IH as (t & -> & Ht); [intros i u Hi; apply Hstep; lia|].
    simpl. apply Hstep; [lia|done].
Qed.

(** ** Cells *)

Lemma get_Ok {T} (v : ObsDataVector.t T) jv jobs x :
  ObsDataVector.get v jv jobs = Ok x <-> ObsDataVector.cell v jv jobs = Some x.
Proof.
  unfold ObsDataVector.get. destruct (ObsDataVector.cell v jv jobs); split; congruence.
Qed.

Lemma get_total {T} (v : ObsDataVector.t T) jv jobs :
  is_Some (ObsDataVector.cell v jv jobs) ->
  exists x, ObsDataVector.get v jv jobs = Ok x /\ ObsDataVector.cell v jv jobs = Some x.
Proof. intros [x Hx]. exists x. by rewrite get_Ok. Qed.

Lemma fmap_unchanged {A} (o : option A) : o = (fun x => x) <$> o.
Proof. by destruct o. Qed.

Lemma same_frame_refl {T} (a : ObsDataVector.t T) : same_frame a a.
Proof. by repeat split. Qed.

Lemma same_frame_trans {T} (a b c : ObsDataVector.t T) :
  same_frame a b -> same_frame b c -> same_frame a c.
Proof. unfold same_frame. intros (?&?&?&?) (?&?&?&?). repeat split; congruence. Qed.

Lemma rewritten_nowhere {T} (upd : nat -> nat -> T -> T) region a :
  (forall jv jobs, region jv jobs = false) -> rewritten region upd a a.
Proof.
  intros Hr. split; [apply same_frame_refl|]. intros jv jobs. rewrite Hr.
  by destruct (ObsDataVector.cell a jv jobs).
Qed.

Lemma rewritten_compose {T} (upd : nat -> nat -> T -> T) r1 r2 r a b c :
  rewritten r1 upd a b -> rewritten r2 upd b c ->
  (forall jv jobs, r1 jv jobs && r2 jv jobs = false) ->
  (forall jv jobs, r jv jobs = r1 jv jobs || r2 jv jobs) ->
  rewritten r upd a c.
Proof.
  intros [F1 C1] [F2 C2] Hdisj Hr. split; [by eapply same_frame_trans|].
  intros jv jobs. rewrite C2, C1, Hr. specialize (Hdisj jv jobs).
  destruct (ObsDataVector.cell a jv jobs); simpl; [|done].
  by destruct (r1 jv jobs), (r2 jv jobs).
Qed.

Lemma rewritten_covers {T} (upd : nat -> nat -> T -> T) region nv nl a b :
  rewritten region upd a b -> covers nv nl a -> covers nv nl b.
Proof.
  intros [_ C] Ha jv jobs Hjv Hjobs. rewrite C.
  destruct (Ha jv jobs Hjv Hjobs) as [x ->]. by eexists.
Qed.

(** Two matrices with the same frame and the same cells are the same. *)
Lemma ObsDataVector_ext {T} (a b : ObsDataVector.t T) :
  same_frame a b ->
  (forall jv jobs, ObsDataVector.cell a jv jobs = ObsDataVector.cell b jv jobs) ->
  a = b.
Proof.
  destruct a as [ta va la ra], b as [tb vb lb rb].
  unfold same_frame, ObsDataVector.cell. simpl. intros (-> & -> & -> & Hlen) Hcell.
  f_equal. apply list_eq. intros jv. specialize (Hcell jv).
  destruct (ra !! jv) as [r1|] eqn:E1, (rb !! jv) as [r2|] eqn:E2.
  - f_equal. apply list_eq. exact Hcell.
  - apply lookup_lt_Some in E1. apply lookup_ge_None in E2. lia.
  - apply lookup_ge_None in E1. apply lookup_lt_Some in E2. lia.
  - done.
Qed.

Lemma set_spec {T} (v v' : ObsDataVector.t T) jv jobs x :
  ObsDataVector.set v jv jobs x = Ok v' ->
  rewritten (at_cell jv jobs) (fun _ _ _ => x) v v'.
Proof.
  unfold ObsDataVector.set. destruct (ObsDataVector.rows_ v !! jv) as [r|] eqn:Er; [|done].
  destruct (jobs <? length r)%nat eqn:Hlt; [|done]. intros [= <-].
  apply Nat.ltb_lt in Hlt. pose proof (lookup_lt_Some _ _ _ Er) as Hjv.
  split; [repeat split; simpl; by rewrite ?length_insert|].
  intros a b. unfold ObsDataVector.cell, at_cell. simpl.
  destruct (decide (a = jv)) as [->|Ha].
  - rewrite list_lookup_insert_eq by done. rewrite Er, Nat.eqb_refl. simpl.
    destruct (decide (b = jobs)) as [->|Hb].
    + rewrite list_lookup_insert_eq by done. rewrite Nat.eqb_refl.
      destruct (lookup_lt_is_Some_2 r jobs Hlt) as [y ->]. done.
    + rewrite list_lookup_insert_ne by done.
      apply Nat.eqb_neq in Hb. rewrite Hb. by destruct (r !! b).
  - rewrite list_lookup_insert_ne by done.
    apply Nat.eqb_neq in Ha. rewrite Ha. simpl.
    destruct (ObsDataVector.rows_ v !! a) as [r'|]; [|done]. by destruct (r' !! b).
Qed.

Lemma set_total {T} (v : ObsDataVector.t T) jv jobs x :
  is_Some (ObsDataVector.cell v jv jobs) ->
  exists v', ObsDataVector.set v jv jobs x = Ok v'.
Proof.
  unfold ObsDataVector.cell, ObsDataVector.set.
  destruct (ObsDataVector.rows_ v !! jv) as [r|]; [|by intros [? ?]].
  intros Hs. apply lookup_lt_is_Some_1 in Hs. apply Nat.ltb_lt in Hs. rewrite Hs.
  by eexists.
Qed.

Lemma well_shaped_covers {T} (v : ObsDataVector.t T) :
  ObsDataVector.well_shaped v = true ->
  covers (ObsDataVector.nvars v) (ObsDataVector.nlocs v) v.
Proof.
  unfold ObsDataVector.well_shaped, ObsDataVector.nvars, ObsDataVector.nlocs.
  intros [Hl Hr]%andb_true_iff jv jobs Hjv Hjobs.
  apply Nat.eqb_eq in Hl. rewrite forallb_forall in Hr.
  unfold ObsDataVector.cell.
  destruct (lookup_lt_is_Some_2 (ObsDataVector.rows_ v) jv) as [r Er]; [lia|].
  rewrite Er. apply lookup_lt_is_Some_2.
  assert (In r (ObsDataVector.rows_ v)) as Hin
    by (apply list_elem_of_In; eapply list_elem_of_lookup_2; eauto).
  apply Hr in Hin. apply Nat.eqb_eq in Hin. lia.
Qed.

(** ** The two nested loops over the cells *)

Section CellLoops.
Context {T : Type}.
Variable upd : nat -> nat -> T -> T.
Variable body : nat -> nat -> ObsDataVector.t T -> result (ObsDataVector.t T).
Hypothesis body_spec : forall jv jobs v v',
  body jv jobs v = Ok v' -> rewritten (at_cell jv jobs) upd v v'.

Lemma row_loop_partial jv nl v v' :
  for_loop nl (body jv) v = Ok v' ->
  rewritten (fun a b => (a =? jv)%nat && (b <? nl)%nat) upd v v'.
Proof.
  intros Hrun.
  apply (for_loop_partial
           (fun k cur => rewritten (fun a b => (a =? jv)%nat && (b <? k)%nat) upd v cur)
           _ _ _ _ Hrun).
  - apply rewritten_nowhere. intros a b. by rewrite andb_false_r.
  - intros k cur cur' _ Hinv Hbody. apply body_spec in Hbody.
    eapply rewritten_compose; [exact Hinv|exact Hbody|..];
      intros a b; unfold at_cell;
      destruct (Nat.eqb_spec a jv), (Nat.eqb_spec b k),
               (Nat.ltb_spec b k), (Nat.ltb_spec b (Datatypes.S k));
      simpl; try done; lia.
Qed.

Lemma cell_loops_partial nv nl v v' :
  for_loop nv (fun jv => for_loop nl (body jv)) v = Ok v' ->
  rewritten (block nv nl) upd v v'.
Proof.
  intros Hrun.
  apply (for_loop_partial (fun k cur => rewritten (block k nl) upd v cur)
           _ _ _ _ Hrun).
  - apply rewritten_nowhere. by intros a b.
  - intros k cur cur' _ Hinv Hrow. apply row_loop_partial in Hrow.
    eapply rewritten_compose; [exact Hinv|exact Hrow|..];
      intros a b; unfold block;
      destruct (Nat.eqb_spec a k), (Nat.ltb_spec a k),
               (Nat.ltb_spec a (Datatypes.S k)), (Nat.ltb_spec b nl);
      simpl; try done; lia.
Qed.

Lemma cell_loops_total nv nl v :
  (forall jv jobs cur, (jv < nv)%nat -> (jobs < nl)%nat -> covers nv nl cur ->
     exists cur', body jv jobs cur = Ok cur') ->
  covers nv nl v ->
  exists v', for_loop nv (fun jv => for_loop nl (body jv)) v = Ok v'.
Proof.
  intros Hbody Hv.
  destruct (for_loop_total (fun _ cur => covers nv nl cur) nv
              (fun jv => for_loop nl (body jv)) v Hv) as (v' & Hrun & _);
    [|by exists v'].
  intros jv cur Hjv Hcur.
  apply (for_loop_total (fun _ cur => covers nv nl cur)); [done|].
  intros jobs cur1 Hjobs Hcur1.
  destruct (Hbody jv jobs cur1 Hjv Hjobs Hcur1) as [cur2 H2].
  exists cur2. split; [done|]. eapply rewritten_covers; [|exact Hcur1].
  by apply body_spec in H2.
Qed.
End CellLoops.

(** ** The initializer on one cell *)

Lemma is_missing_spec flags obs obserr jv jobs c :
  is_missing flags obs obserr jv jobs = Ok c ->
  exists f, ObsDataVector.cell flags jv jobs = Some f
            /\ c = missing_cond obs obserr jv jobs f.
Proof.
  unfold is_missing, missing_cond, ObsDataVector.get.
  destruct (ObsDataVector.cell flags jv jobs) as [f|]; [|done]. simpl.
  intros H. exists f. split; [done|].
  destruct (f =? imiss); [by injection H|]. simpl.
  destruct (ObsDataVector.cell obs jv jobs) as [o|]; [|done]. simpl in *.
  destruct (SFeqb o rmiss); [by injection H|]. simpl.
  destruct (ObsDataVector.cell obserr jv jobs) as [e|]; [|done]. simpl in *.
  by injection H.
Qed.

Lemma is_missing_total flags obs obserr jv jobs :
  is_Some (ObsDataVector.cell flags jv jobs) ->
  is_Some (ObsDataVector.cell obs jv jobs) ->
  is_Some (ObsDataVector.cell obserr jv jobs) ->
  exists c, is_missing flags obs obserr jv jobs = Ok c.
Proof.
  unfold is_missing, ObsDataVector.get. intros [f ->] [o ->] [e ->]. simpl.
  destruct (f =? imiss); [by eexists|]. destruct (SFeqb o rmiss); by eexists.
Qed.

Lemma init_cell_spec obs obserr jv jobs v v' :
  init_cell obs obserr jv jobs v = Ok v' ->
  rewritten (at_cell jv jobs) (init_upd obs obserr) v v'.
Proof.
  unfold init_cell.
  destruct (is_missing v obs obserr jv jobs) as [c|] eqn:Hc; [|done]. simpl.
  apply is_missing_spec in Hc as (f & Hf & ->). unfold init_upd.
  destruct (missing_cond obs obserr jv jobs f) eqn:Hcond.
  - intros [Hfr Hcell]%set_spec. split; [done|]. intros a b. rewrite Hcell.
    unfold at_cell. destruct (Nat.eqb_spec a jv) as [->|], (Nat.eqb_spec b jobs) as [->|];
      simpl; try done. rewrite Hf. simpl. by rewrite Hcond.
  - intros [= <-]. split; [apply same_frame_refl|]. intros a b.
    unfold at_cell. destruct (Nat.eqb_spec a jv) as [->|], (Nat.eqb_spec b jobs) as [->|];
      simpl; try apply fmap_unchanged. rewrite Hf. simpl. by rewrite Hcond.
Qed.

Lemma init_cell_total obs obserr jv jobs v :
  is_Some (ObsDataVector.cell v jv jobs) ->
  is_Some (ObsDataVector.cell obs jv jobs) ->
  is_Some (ObsDataVector.cell obserr jv jobs) ->
  exists v', init_cell obs obserr jv jobs v = Ok v'.
Proof.
  intros Hv Ho He. unfold init_cell.
  destruct (is_missing_total v obs obserr jv jobs Hv Ho He) as [c ->]. simpl.
  destruct c; [by apply set_total|by eexists].
Qed.

Lemma init_pass_spec nv nl obs obserr v v' :
  init_pass nv nl obs obserr v = Ok v' ->
  rewritten (block nv nl) (init_upd obs obserr) v v'.
Proof. apply cell_loops_partial. intros *. apply init_cell_spec. Qed.

Lemma init_pass_total nv nl obs obserr v :
  covers nv nl v -> covers nv nl obs -> covers nv nl obserr ->
  exists v', init_pass nv nl obs obserr v = Ok v'.
Proof.
  intros Hv Ho He.
  apply (cell_loops_total (init_upd obs obserr)); [| |done].
  - intros *. apply init_cell_spec.
  - intros jv jobs cur Hjv Hjobs Hcur. apply init_cell_total; auto.
Qed.

(** ** The updater on one cell *)

Lemma update_cell_spec nv hofx jv jobs v v' :
  update_cell nv hofx jv jobs v = Ok v' ->
  rewritten (at_cell jv jobs) (fail_upd nv hofx) v v'.
Proof.
  unfold update_cell, ObsDataVector.get, ObsVector_get.
  destruct (ObsDataVector.cell v jv jobs) as [f|] eqn:Hf; [|done]. simpl.
  assert (forall c, failed_cond nv hofx jv jobs f = c ->
            (if c then ObsDataVector.set v jv jobs (QCflags.Hfailed Q) else Ok v) = Ok v' ->
            rewritten (at_cell jv jobs) (fail_upd nv hofx) v v') as Hgen.
  { intros [|] Hcond.
    - intros [Hfr Hcell]%set_spec. split; [done|]. intros a b. rewrite Hcell.
      unfold at_cell, fail_upd.
      destruct (Nat.eqb_spec a jv) as [->|], (Nat.eqb_spec b jobs) as [->|];
        simpl; try done. rewrite Hf. simpl. by rewrite Hcond.
    - intros [= <-]. split; [apply same_frame_refl|]. intros a b.
      unfold at_cell, fail_upd.
      destruct (Nat.eqb_spec a jv) as [->|], (Nat.eqb_spec b jobs) as [->|];
        simpl; try apply fmap_unchanged. rewrite Hf. simpl. by rewrite Hcond. }
  unfold failed_cond in Hgen. destruct (f =? 0); simpl in *.
  - destruct (_ !! (nv * jobs + jv)%nat) as [h|]; [|done]. simpl in *.
    intros H. by eapply Hgen.
  - intros H. by eapply (Hgen false).
Qed.

Lemma update_cell_total nv (hofx : list double) jv jobs v :
  is_Some (ObsDataVector.cell v jv jobs) ->
  is_Some (hofx !! (nv * jobs + jv)%nat) ->
  exists v', update_cell nv hofx jv jobs v = Ok v'.
Proof.
  unfold update_cell, ObsDataVector.get, ObsVector_get.
  intros Hv [h ->]. destruct Hv as [f Hf]. rewrite Hf. simpl.
  destruct (f =? 0); [|by eexists]. simpl.
  destruct (SFeqb h dmiss); [|by eexists]. apply set_total. by rewrite Hf.
Qed.

Lemma postFilter_spec self hofx v v' :
  postFilter self hofx v = Ok v' ->
  rewritten (block (length (observed_ self)) (ObsSpace.nlocs (obsdb_ self)))
            (fail_upd (length (observed_ self)) hofx) v v'.
Proof. apply cell_loops_partial. intros *. apply update_cell_spec. Qed.

Lemma postFilter_total self hofx v :
  covers (length (observed_ self)) (ObsSpace.nlocs (obsdb_ self)) v ->
  (length (observed_ self) * ObsSpace.nlocs (obsdb_ self) <= length hofx)%nat ->
  exists v', postFilter self hofx v = Ok v'.
Proof.
  intros Hv Hh.
  apply (cell_loops_total (fail_upd (length (observed_ self)) hofx)); [| |done].
  - intros *. apply update_cell_spec.
  - intros jv jobs cur Hjv Hjobs Hcur. apply update_cell_total; [auto|].
    apply lookup_lt_is_Some_2. nia.
Qed.

(** ** What the constructor reads *)

Lemma ObsDataVector_from_cell obsdb vars group jv jobs var :
  vars !! jv = Some var -> (jobs < ObsSpace.nlocs obsdb)%nat ->
  ObsDataVector.cell (ObsDataVector_from obsdb vars group) jv jobs
  = Some (ObsSpace.get_db obsdb group var jobs).
Proof.
  intros Hvar Hjobs. unfold ObsDataVector.cell, ObsDataVector_from. simpl.
  rewrite list_lookup_fmap, Hvar. simpl.
  rewrite list_lookup_fmap, lookup_seq_lt by done. done.
Qed.

Lemma ObsDataVector_from_covers obsdb vars group :
  covers (length vars) (ObsSpace.nlocs obsdb) (ObsDataVector_from obsdb vars group).
Proof.
  intros jv jobs Hjv Hjobs.
  destruct (lookup_lt_is_Some_2 vars jv Hjv) as [var Hvar].
  erewrite ObsDataVector_from_cell by done. by eexists.
Qed.

(** ** The constructor *)

Lemma dims_agree_checks obsdb flags obserr :
  dims_agree obsdb flags obserr = true <->
  ObsDataVector.nvars flags = length (ObsSpace.obsvariables obsdb)
  /\ ObsDataVector.nlocs flags = ObsSpace.nlocs obsdb
  /\ ObsDataVector.nvars obserr = length (ObsSpace.obsvariables obsdb)
  /\ ObsDataVector.nlocs obserr = ObsSpace.nlocs obsdb.
Proof.
  unfold dims_agree, ObsDataVector_from, ObsDataVector.nvars, ObsDataVector.nlocs.
  simpl. rewrite !andb_true_iff, !Nat.eqb_eq. lia.
Qed.

Lemma QCmanager_ctor_checked obsdb config flags obserr :
  dims_agree obsdb flags obserr = true ->
  QCmanager_ctor obsdb config (Some flags) (Some obserr)
  = do flags' <- init_pass (length (ObsSpace.obsvariables obsdb)) (ObsSpace.nlocs obsdb)
                   (ObsDataVector_from obsdb (ObsSpace.obsvariables obsdb) "ObsValue")
                   obserr flags;
    Ok (mkQCmanager obsdb config [] (ObsSpace.obsvariables obsdb), flags').
Proof.
  intros (H1 & H2 & H3 & H4)%dims_agree_checks. unfold QCmanager_ctor.
  rewrite H1, H2, H3, H4, !Nat.eqb_refl. done.
Qed.

Lemma QCmanager_ctor_rejected obsdb config flags obserr :
  dims_agree obsdb flags obserr = false ->
  exists text,
    QCmanager_ctor obsdb config (Some flags) (Some obserr) = Err (AssertionFailed text).
Proof.
  intros Hd. unfold QCmanager_ctor.
  destruct (ObsDataVector.nvars flags =? length (ObsSpace.obsvariables obsdb))%nat eqn:E1;
    [|by eexists].
  destruct (ObsDataVector.nlocs flags =? ObsSpace.nlocs obsdb)%nat eqn:E2; [|by eexists].
  destruct (ObsDataVector.nvars obserr =? length (ObsSpace.obsvariables obsdb))%nat eqn:E3;
    [|by eexists].
  destruct (ObsDataVector.nlocs obserr =? ObsSpace.nlocs obsdb)%nat eqn:E4; [|by eexists].
  apply Nat.eqb_eq in E1, E2, E3, E4.
  assert (dims_agree obsdb flags obserr = true) by (by apply dims_agree_checks).
  congruence.
Qed.

Lemma QCmanager_ctor_spec obsdb config flags obserr self flags' :
  QCmanager_ctor obsdb config (Some flags) obserr = Ok (self, flags') ->
  exists err,
    obserr = Some err
    /\ dims_agree obsdb flags err = true
    /\ self = mkQCmanager obsdb config [] (ObsSpace.obsvariables obsdb)
    /\ rewritten (block (length (ObsSpace.obsvariables obsdb)) (ObsSpace.nlocs obsdb))
         (init_upd (ObsDataVector_from obsdb (ObsSpace.obsvariables obsdb) "ObsValue") err)
         flags flags'.
Proof.
  destruct obserr as [err|]; [|done]. intros Hrun. exists err.
  destruct (dims_agree obsdb flags err) eqn:Hd.
  - rewrite QCmanager_ctor_checked in Hrun by done.
    destruct (init_pass _ _ _ _ _) as [v|] eqn:Hpass; [|done].
    injection Hrun as <- <-. do 3 (split; [done|]). by apply init_pass_spec.
  - destruct (QCmanager_ctor_rejected obsdb config flags err Hd) as [text Ht]. congruence.
Qed.

Lemma QCmanager_ctor_total obsdb config flags obserr :
  covers (ObsDataVector.nvars flags) (ObsDataVector.nlocs flags) flags ->
  covers (ObsDataVector.nvars obserr) (ObsDataVector.nlocs obserr) obserr ->
  dims_agree obsdb flags obserr = true ->
  exists flags',
    QCmanager_ctor obsdb config (Some flags) (Some obserr)
    = Ok (mkQCmanager obsdb config [] (ObsSpace.obsvariables obsdb), flags').
Proof.
  intros Hf He Hd. rewrite QCmanager_ctor_checked by done.
  apply dims_agree_checks in Hd as (H1 & H2 & H3 & H4).
  rewrite H1, H2 in Hf. rewrite H3, H4 in He.
  destruct (init_pass_total _ _ _ _ _ Hf (ObsDataVector_from_covers obsdb _ "ObsValue") He)
    as [flags' ->].
  by exists flags'.
Qed.

Lemma init_upd_idem obs obserr jv jobs f :
  init_upd obs obserr jv jobs (init_upd obs obserr jv jobs f)
  = init_upd obs obserr jv jobs f.
Proof.
  unfold init_upd. destruct (missing_cond obs obserr jv jobs f) eqn:E.
  - by destruct (missing_cond obs obserr jv jobs (QCflags.missing Q)).
  - by rewrite E.
Qed.

Lemma fail_upd_idem nv hofx jv jobs f :
  fail_upd nv hofx jv jobs (fail_upd nv hofx jv jobs f) = fail_upd nv hofx jv jobs f.
Proof.
  unfold fail_upd. destruct (failed_cond nv hofx jv jobs f) eqn:E.
  - by destruct (failed_cond nv hofx jv jobs (QCflags.Hfailed Q)).
  - by rewrite E.
Qed.

(** Running a pass again on its own result changes nothing. *)
Lemma rewritten_twice {T} (upd : nat -> nat -> T -> T) region a b c :
  (forall jv jobs f, upd jv jobs (upd jv jobs f) = upd jv jobs f) ->
  rewritten region upd a b -> rewritten region upd b c -> c = b.
Proof.
  intros Hidem [Fab Cab] [Fbc Cbc]. symmetry. apply ObsDataVector_ext; [done|].
  intros jv jobs. rewrite Cbc, Cab.
  destruct (ObsDataVector.cell a jv jobs) as [f|]; simpl; [|done].
  destruct (region jv jobs); [|done]. by rewrite Hidem.
Qed.

Lemma fits_covers self flags :
  fits self flags = true ->
  covers (length (observed_ self)) (ObsSpace.nlocs (obsdb_ self)) flags.
Proof.
  unfold fits. intros [[Hw Hv%Nat.eqb_eq]%andb_true_iff Hl%Nat.eqb_eq]%andb_true_iff.
  rewrite <- Hv, <- Hl. by apply well_shaped_covers.
Qed.

(** ** The reporter: what is written, and when *)

Lemma emit_if_positive_app info n text os l :
  emit_if_positive info n text (os ++ l) = os ++ emit_if_positive info n text l.
Proof. unfold emit_if_positive. destruct (0 <? n); [by rewrite app_assoc|done]. Qed.

Lemma report_app info g os l :
  report info g (os ++ l) = os ++ report info g l.
Proof. unfold report. by rewrite !emit_if_positive_app, app_assoc. Qed.

Lemma emit_app self flags jj g os :
  emit self flags jj g os
  = do l <- emit self flags jj g []; Ok (os ++ l).
Proof.
  unfold emit. destruct (_ =? 0)%nat; simpl; [|by rewrite app_nil_r].
  destruct (Variables_get (observed_ self) jj); simpl; [|done].
  by rewrite <- report_app, app_nil_r.
Qed.

Lemma emit_total self flags jj g os :
  (jj < length (observed_ self))%nat ->
  exists l, emit self flags jj g [] = Ok l /\ emit self flags jj g os = Ok (os ++ l).
Proof.
  intros Hjj. rewrite (emit_app _ _ _ _ os). unfold emit, Variables_get.
  destruct (_ =? 0)%nat; [|by eexists].
  destruct (lookup_lt_is_Some_2 (observed_ self) jj Hjj) as [name ->]. by eexists.
Qed.



(** When the counts of a variable can be taken, the iteration first
    writes and then asserts. *)
Lemma print_var_counted self flags jj os :
  (jj < length (observed_ self))%nat ->
  is_ok (global_counts self flags jj) = true ->
  exists text,
    print_var self flags jj os
    = (os ++ emitted self flags jj, ASSERT (checked self flags jj) text).
Proof.
  intros Hjj Hok. unfold print_var, emitted, checked.
  destruct (global_counts self flags jj) as [g|]; [|done].
  destruct (emit_total self flags jj g os Hjj) as (l & -> & ->). by eexists.
Qed.

(** The loop of [print] over the first [n] variables: it ends at the
    first variable whose assertion fails, after that variable's lines. *)
Lemma print_loop_trace self flags n os :
  (n <= length (observed_ self))%nat ->
  (forall jj, (jj < n)%nat -> is_ok (global_counts self flags jj) = true) ->
  match print_loop n (print_var self flags) os with
  | (out, Ok _) =>
      (forall jj, (jj < n)%nat -> checked self flags jj = true)
      /\ out = os ++ concat (map (emitted self flags) (seq 0 n))
  | (out, Err e) =>
      exists jj text,
        (jj < n)%nat
        /\ e = AssertionFailed text
        /\ checked self flags jj = false
        /\ (forall i, (i < jj)%nat -> checked self flags i = true)
        /\ out = os ++ concat (map (emitted self flags) (seq 0 (Datatypes.S jj)))
  end.
Proof.
  intros Hn Hok. induction n as [|n IH]; simpl.
  - split; [lia|by rewrite app_nil_r].
  - specialize (IH ltac:(lia) ltac:(intros; apply Hok; lia)).
    destruct (print_loop n (print_var self flags) os) as [out [[]|e]].
    + destruct IH as [Hall ->].
      destruct (print_var_counted self flags n
                  (os ++ concat (map (emitted self flags) (seq 0 n))))
        as [text ->]; [lia|apply Hok; lia|].
      assert ((os ++ concat (map (emitted self flags) (seq 0 n))) ++ emitted self flags n
              = os ++ concat (map (emitted self flags) (seq 0 (Datatypes.S n)))) as ->.
      { rewrite seq_S, map_app, concat_app. simpl. by rewrite app_nil_r, app_assoc. }
      unfold ASSERT. destruct (checked self flags n) eqn:Hc.
      * split; [|done]. intros jj Hjj.
        destruct (decide (jj = n)) as [->|]; [done|apply Hall; lia].
      * exists n, text. split; [lia|]. do 2 (split; [done|]). split; [|done].
        intros i Hi. by apply Hall.
    + destruct IH as (jj & text & Hjj & -> & Hc & Hbefore & ->).
      exists jj, text. split; [lia|]. by do 3 (split; [done|]).
Qed.

(** ** The reporter: what is counted *)

Lemma local_counts_spec nl flags jj c :
  local_counts nl flags jj = Ok c -> c = tally nl (column nl flags jj).
Proof.
  intros Hrun. unfold column, tally.
  set (row := default [] (ObsDataVector.rows_ flags !! jj)).
  apply (for_loop_partial
           (fun k c => c = fold_left (fun c f => count_flag f c) (take k row)
                                     (Counts.mk (Z.of_nat nl) 0 0 0 0 0 0 0 0 0 0))
           _ _ _ _ Hrun).
  - done.
  - intros k t t' _ -> Hbody.
    destruct (ObsDataVector.get flags jj k) as [f|] eqn:Hget; [|done].
    simpl in Hbody. injection Hbody as <-.
    apply get_Ok in Hget. unfold ObsDataVector.cell in Hget.
    assert (row !! k = Some f) as Hrow.
    { unfold row. by destruct (ObsDataVector.rows_ flags !! jj). }
    by rewrite (take_S_r _ _ _ Hrow), fold_left_app.
Qed.

Lemma local_counts_total nl flags jj :
  (forall jobs, (jobs < nl)%nat -> is_Some (ObsDataVector.cell flags jj jobs)) ->
  is_ok (local_counts nl flags jj) = true.
Proof.
  intros Hc.
  destruct (for_loop_total (fun _ _ => True) nl
              (fun jobs c => do f <- ObsDataVector.get flags jj jobs; Ok (count_flag f c))
              (Counts.mk (Z.of_nat nl) 0 0 0 0 0 0 0 0 0 0)) as (c & Hrun & _); [done| |].
  - intros jobs t Hjobs _.
    destruct (get_total flags jj jobs (Hc jobs Hjobs)) as (f & -> & _). by eexists.
  - unfold local_counts. by rewrite Hrun.
Qed.

Lemma mapM_total {A B} (f : A -> result B) l :
  (forall a, In a l -> is_ok (f a) = true) -> is_ok (mapM f l) = true.
Proof.
  induction l as [|a l IH]; intros Hf; simpl; [done|].
  pose proof (Hf a (or_introl eq_refl)) as Ha. destruct (f a); [|done]. simpl.
  specialize (IH (fun b Hb => Hf b (or_intror Hb))). by destruct (mapM f l).
Qed.

Lemma mapM_spec {A B} (f : A -> result B) l bs :
  mapM f l = Ok bs -> Forall2 (fun a b => f a = Ok b) l bs.
Proof.
  revert bs. induction l as [|a l IH]; intros bs; simpl.
  - intros [= <-]. constructor.
  - destruct (f a) as [b|] eqn:Ha; [|done]. simpl.
    destruct (mapM f l) as [bs'|]; [|done]. simpl. intros [= <-].
    constructor; [done|by apply IH].
Qed.

Lemma global_counts_total self flags jj :
  fits self flags = true -> peers_fit self = true ->
  (jj < length (observed_ self))%nat ->
  is_ok (global_counts self flags jj) = true.
Proof.
  intros Hfit Hpeers Hjj. unfold global_counts.
  pose proof (local_counts_total (ObsSpace.nlocs (obsdb_ self)) flags jj) as Hl.
  destruct (local_counts _ flags jj);
    [|apply Hl; intros; by apply (fits_covers self flags Hfit)].
  simpl. unfold peer_counts.
  pose proof (mapM_total
                (fun pf => local_counts (ObsDataVector.nlocs pf) pf jj)
                (Comm.peers (ObsSpace.comm (obsdb_ self)))) as Hp.
  destruct (mapM _ _); [done|]. apply Hp. intros pf Hin.
  unfold peers_fit in Hpeers. rewrite forallb_forall in Hpeers.
  apply Hpeers in Hin as [Hw Hv%Nat.eqb_eq]%andb_true_iff.
  apply local_counts_total. intros jobs Hjobs.
  apply (well_shaped_covers pf Hw); [lia|done].
Qed.

(** *** Arithmetic of the counters *)

Lemma wrap64_bounds x : 0 <= wrap64 x < 2 ^ 64.
Proof. unfold wrap64. apply Z.mod_pos_bound. lia. Qed.

Lemma wrap64_small x : 0 <= x < 2 ^ 64 -> wrap64 x = x.
Proof. apply Z.mod_small. Qed.

Lemma add64_exact a b : 0 <= a -> 0 <= b -> a + b < 2 ^ 64 -> add64 a b = a + b.
Proof. intros. apply wrap64_small. lia. Qed.

Lemma add64_wrap a b : add64 (wrap64 a) b = wrap64 (a + b).
Proof. unfold add64, wrap64. apply Zplus_mod_idemp_l. Qed.

Lemma bump_wrap b h : bump b (wrap64 h) = wrap64 (h + weight b).
Proof.
  destruct b; unfold bump, add64, wrap64, weight.
  - apply Zplus_mod_idemp_l.
  - by rewrite Z.add_0_r.
Qed.

Lemma sumZ_cons x l : sumZ (x :: l) = x + sumZ l.
Proof. done. Qed.

Lemma sumZ_app l1 l2 : sumZ (l1 ++ l2) = sumZ l1 + sumZ l2.
Proof. induction l1 as [|x l1 IH]; simpl; [done|]. rewrite IH. lia. Qed.

Lemma sumZ_nonneg l : Forall (fun y => 0 <= y) l -> 0 <= sumZ l.
Proof. induction 1; simpl; lia. Qed.

Lemma weight_bounds b : 0 <= weight b <= 1.
Proof. destruct b; simpl; lia. Qed.

Lemma hits_cons p f col : hits p (f :: col) = weight (p f) + hits p col.
Proof. done. Qed.

Lemma hits_snoc p col f : hits p (col ++ [f]) = hits p col + weight (p f).
Proof. unfold hits. rewrite map_app, sumZ_app. simpl. lia. Qed.

Lemma hits_bounds p col : 0 <= hits p col <= Z.of_nat (length col).
Proof.
  induction col as [|f col IH]; [done|]. rewrite hits_cons.
  pose proof (weight_bounds (p f)). simpl length. lia.
Qed.

Lemma hits_missed p col f :
  In f col -> p f = false -> hits p col < Z.of_nat (length col).
Proof.
  induction col as [|x col IH]; [done|]. rewrite hits_cons. simpl length.
  intros [->|Hin] Hp.
  - rewrite Hp. pose proof (hits_bounds p col). simpl. lia.
  - specialize (IH Hin Hp). pose proof (weight_bounds (p x)). lia.
Qed.


Lemma allReduce_exact others x :
  0 <= x -> Forall (fun y => 0 <= y) others -> x + sumZ others < 2 ^ 64 ->
  allReduceInPlace others x = x + sumZ others.
Proof.
  unfold allReduceInPlace. intros Hx Hall. revert x Hx.
  induction Hall as [|a l Ha Hl IH]; intros x Hx Hsum; simpl in *; [lia|].
  pose proof (sumZ_nonneg l Hl).
  rewrite add64_exact by lia. rewrite IH by lia. lia.
Qed.

(** *** The counting loop *)

Lemma tally_snoc nl col f : tally nl (col ++ [f]) = count_flag f (tally nl col).
Proof. unfold tally. by rewrite fold_left_app. Qed.

Lemma tally_spec nl col :
  tally nl col
  = Counts.mk (Z.of_nat nl)
      (wrap64 (hits (fun f => f =? QCflags.pass Q) col))
      (wrap64 (hits (fun f => f =? QCflags.missing Q) col))
      (wrap64 (hits (fun f => f =? QCflags.preQC Q) col))
      (wrap64 (hits (fun f => f =? QCflags.bounds Q) col))
      (wrap64 (hits (fun f => f =? QCflags.domain Q) col))
      (wrap64 (hits (fun f => f =? QCflags.black Q) col))
      (wrap64 (hits (fun f => f =? QCflags.Hfailed Q) col))
      (wrap64 (hits (fun f => f =? QCflags.fguess Q) col))
      (wrap64 (hits (fun f => (f =? 76) || (f =? 77)) col))
      (wrap64 (hits (fun f => f =? QCflags.thinned Q) col)).
Proof.
  induction col as [|f col IH] using rev_ind; [done|].
  rewrite tally_snoc, IH. unfold count_flag.
  cbn [Counts.iobs Counts.ipass Counts.imiss Counts.ipreq Counts.ibnds Counts.iwhit
       Counts.iblck Counts.iherr Counts.ifgss Counts.ignss Counts.ithin].
  by rewrite !bump_wrap, !hits_snoc.
Qed.


(** The counters every worker holds after the collectives. *)
Lemma global_counts_spec self flags jj g :
  global_counts self flags jj = Ok g ->
  g = reduce_counts
        (map (fun s => tally (fst s) (column (fst s) (snd s) jj))
             (tail (shards self flags)))
        (tally (ObsSpace.nlocs (obsdb_ self))
               (column (ObsSpace.nlocs (obsdb_ self)) flags jj)).
Proof.
  unfold global_counts, peer_counts, shards. simpl.
  destruct (local_counts _ flags jj) as [c|] eqn:Hc; [|done]. simpl.
  destruct (mapM _ _) as [ps|] eqn:Hps; [|done]. simpl. intros [= <-].
  apply local_counts_spec in Hc as ->. f_equal.
  apply mapM_spec in Hps. rewrite map_map. simpl.
  induction Hps as [|pf c l cs Hpf _ IH]; [done|]. simpl.
  apply local_counts_spec in Hpf as ->. by rewrite IH.
Qed.


(** *** The collectives without overflow *)

Lemma sumZ_member {A} (b : A -> Z) l a :
  (forall x, 0 <= b x) -> In a l -> b a <= sumZ (map b l).
Proof.
  intros Hb. induction l as [|x l IH]; [done|]. simpl.
  intros [->|Hin]; [|specialize (IH Hin); pose proof (Hb x); lia].
  assert (0 <= sumZ (map b l)); [|lia].
  apply sumZ_nonneg, List.Forall_forall. intros y (z & <- & _)%in_map_iff. apply Hb.
Qed.

Lemma sumZ_le {A} (h b : A -> Z) l :
  (forall x, h x <= b x) -> sumZ (map h l) <= sumZ (map b l).
Proof. intros Hle. induction l as [|x l IH]; simpl; [done|]. pose proof (Hle x). lia. Qed.

Lemma column_length nl flags jj : (length (column nl flags jj) <= nl)%nat.
Proof. unfold column. rewrite length_take. lia. Qed.

Lemma column_hits_bounds p (s : nat * ObsDataVector.t int) jj :
  0 <= hits p (column (fst s) (snd s) jj) <= Z.of_nat (fst s).
Proof.
  pose proof (hits_bounds p (column (fst s) (snd s) jj)).
  pose proof (column_length (fst s) (snd s) jj). lia.
Qed.

Lemma reduce_field (proj : Counts.t -> Z) p jj
    (ss : list (nat * ObsDataVector.t int)) s0 :
  (forall nl col, proj (tally nl col) = wrap64 (hits p col)) ->
  sumZ (map (fun s => Z.of_nat (fst s)) (s0 :: ss)) < 2 ^ 64 ->
  allReduceInPlace
    (map proj (map (fun s => tally (fst s) (column (fst s) (snd s) jj)) ss))
    (proj (tally (fst s0) (column (fst s0) (snd s0) jj)))
  = sumZ (map (hits p) (map (fun s => column (fst s) (snd s) jj) (s0 :: ss))).
Proof.
  intros Hproj Hsum. rewrite !map_map.
  set (h := fun s : nat * ObsDataVector.t int => hits p (column (fst s) (snd s) jj)).
  set (b := fun s : nat * ObsDataVector.t int => Z.of_nat (fst s)) in *.
  assert (forall s, In s (s0 :: ss) -> wrap64 (h s) = h s) as Hsmall.
  { intros s Hin. apply wrap64_small.
    pose proof (column_hits_bounds p s jj).
    pose proof (sumZ_member b (s0 :: ss) s ltac:(intros; unfold b; lia) Hin).
    unfold h, b in *. lia. }
  rewrite (map_ext_in _ h).
  2: { intros s Hin. rewrite Hproj. apply Hsmall. by right. }
  rewrite Hproj. fold (h s0). rewrite (Hsmall s0) by (by left).
  pose proof (sumZ_le h b ss ltac:(intros s; apply (column_hits_bounds p s jj))).
  rewrite allReduce_exact; simpl in *.
  - done.
  - apply (column_hits_bounds p s0 jj).
  - apply List.Forall_forall. intros y (s & <- & _)%in_map_iff.
    apply (column_hits_bounds p s jj).
  - pose proof (column_hits_bounds p s0 jj). unfold h, b in *. lia.
Qed.

Lemma category_sum_wrap g :
  category_sum g
  = wrap64 (Counts.ipass g + Counts.imiss g + Counts.ipreq g + Counts.ibnds g
            + Counts.iwhit g + Counts.iblck g + Counts.iherr g + Counts.ithin g
            + Counts.ifgss g + Counts.ignss g).
Proof.
  unfold category_sum.
  change (add64 (Counts.ipass g) (Counts.imiss g))
    with (wrap64 (Counts.ipass g + Counts.imiss g)).
  by rewrite !add64_wrap.
Qed.

Lemma global_counts_exact self flags jj g :
  global_counts self flags jj = Ok g ->
  records self flags < 2 ^ 64 ->
  Counts.iobs g = records self flags
  /\ category_sum g = wrap64 (category_hits (ghits self flags jj)).
Proof.
  intros ->%global_counts_spec Hrec. unfold records in *. split.
  - unfold reduce_counts. cbn [Counts.iobs]. rewrite map_map.
    rewrite (map_ext _ (fun s => Z.of_nat (fst s))) by (intros; by rewrite tally_spec).
    rewrite tally_spec. cbn [Counts.iobs].
    rewrite allReduce_exact; [done|lia| |done].
    apply List.Forall_forall. intros y (s & <- & _)%in_map_iff. lia.
  - rewrite category_sum_wrap. f_equal.
    unfold category_hits, ghits, columns, reduce_counts.
    cbn [Counts.ipass Counts.imiss Counts.ipreq Counts.ibnds Counts.iwhit
         Counts.iblck Counts.iherr Counts.ifgss Counts.ignss Counts.ithin].
    pose proof (fun proj p H =>
                  reduce_field proj p jj (tail (shards self flags))
                    (ObsSpace.nlocs (obsdb_ self), flags) H Hrec) as Hf.
    cbn [fst snd] in Hf. unfold size_t in *.
    rewrite (Hf Counts.ipass (fun f => f =? QCflags.pass Q))
      by (intros; by rewrite tally_spec).
    rewrite (Hf Counts.imiss (fun f => f =? QCflags.missing Q))
      by (intros; by rewrite tally_spec).
    rewrite (Hf Counts.ipreq (fun f => f =? QCflags.preQC Q))
      by (intros; by rewrite tally_spec).
    rewrite (Hf Counts.ibnds (fun f => f =? QCflags.bounds Q))
      by (intros; by rewrite tally_spec).
    rewrite (Hf Counts.iwhit (fun f => f =? QCflags.domain Q))
      by (intros; by rewrite tally_spec).
    rewrite (Hf Counts.iblck (fun f => f =? QCflags.black Q))
      by (intros; by rewrite tally_spec).
    rewrite (Hf Counts.iherr (fun f => f =? QCflags.Hfailed Q))
      by (intros; by rewrite tally_spec).
    rewrite (Hf Counts.ithin (fun f => f =? QCflags.thinned Q))
      by (intros; by rewrite tally_spec).
    rewrite (Hf Counts.ifgss (fun f => f =? QCflags.fguess Q))
      by (intros; by rewrite tally_spec).
    rewrite (Hf Counts.ignss (fun f => (f =? 76) || (f =? 77)))
      by (intros; by rewrite tally_spec).
    reflexivity.
Qed.

(** *** Every cell is counted at most once *)

Lemma weight_sum_existsb f (l : list int) :
  NoDup l -> sumZ (map (fun c => weight (f =? c)) l) = weight (existsb (Z.eqb f) l).
Proof.
  induction 1 as [|x l Hx Hl IH]; [done|]. simpl. rewrite IH.
  destruct (Z.eqb_spec f x) as [->|Hne]; [|done]. simpl.
  destruct (existsb (Z.eqb x) l) eqn:Hex; [|done].
  apply existsb_exists in Hex as (y & Hy & ->%Z.eqb_eq).
  by apply list_elem_of_In in Hy.
Qed.

Lemma cell_counted_once f :
  QCflags.distinct Q = true ->
  category_hits (fun p => weight (p f)) = weight (QCflags.is_recognized Q f).
Proof.
  intros Hd%bool_decide_eq_true. unfold QCflags.is_recognized.
  rewrite <- (weight_sum_existsb f _ Hd). unfold category_hits, QCflags.recognized.
  cbn [map sumZ fold_right].
  assert (weight ((f =? 76) || (f =? 77)) = weight (f =? 76) + weight (f =? 77)) as ->
    by (destruct (Z.eqb_spec f 76), (Z.eqb_spec f 77); simpl; lia).
  lia.
Qed.

Lemma column_counted_once col :
  QCflags.distinct Q = true ->
  category_hits (fun p => hits p col) = hits (QCflags.is_recognized Q) col.
Proof.
  intros Hd. induction col as [|f col IH]; [done|].
  rewrite hits_cons, <- IH, <- (cell_counted_once f Hd).
  unfold category_hits. rewrite !hits_cons. lia.
Qed.

Lemma columns_counted_once self flags jj :
  QCflags.distinct Q = true ->
  category_hits (ghits self flags jj)
  = ghits self flags jj (QCflags.is_recognized Q).
Proof.
  intros Hd. unfold ghits. induction (columns self flags jj) as [|col cols IH]; [done|].
  cbn [map]. rewrite sumZ_cons, <- IH, <- (column_counted_once col Hd).
  unfold category_hits. cbn [map]. rewrite !sumZ_cons. lia.
Qed.

Lemma ghits_le_records self flags jj p :
  ghits self flags jj p <= records self flags.
Proof.
  unfold ghits, records, columns. rewrite map_map.
  apply sumZ_le. intros s. apply (column_hits_bounds p s jj).
Qed.

Lemma ghits_missed self flags jj p s jobs f :
  In s (shards self flags) -> (jobs < fst s)%nat ->
  ObsDataVector.get (snd s) jj jobs = Ok f -> p f = false ->
  ghits self flags jj p < records self flags.
Proof.
  intros Hin Hjobs Hget%get_Ok Hp. unfold ghits, records, columns. rewrite map_map.
  assert (hits p (column (fst s) (snd s) jj) < Z.of_nat (fst s)) as Hs.
  { pose proof (column_length (fst s) (snd s) jj).
    enough (hits p (column (fst s) (snd s) jj)
            < Z.of_nat (length (column (fst s) (snd s) jj))) by lia.
    apply (hits_missed p _ f); [|done].
    apply list_elem_of_In, list_elem_of_lookup. exists jobs. unfold column.
    rewrite lookup_take_lt by done. unfold ObsDataVector.cell in Hget.
    by destruct (ObsDataVector.rows_ (snd s) !! jj). }
  induction (shards self flags) as [|x l IH]; [done|]. simpl.
  pose proof (column_hits_bounds p x jj).
  destruct Hin as [->|Hin].
  - pose proof (sumZ_le (fun s => hits p (column (fst s) (snd s) jj))
                  (fun s => Z.of_nat (fst s)) l
                  ltac:(intros y; apply (column_hits_bounds p y jj))).
    simpl in *. lia.
  - specialize (IH Hin). simpl in *. lia.
Qed.

(** A cell with a code that has no counter makes the assertion fail. *)
Lemma unrecognized_unchecked self flags jj s jobs f :
  QCflags.distinct Q = true ->
  records self flags < 2 ^ 64 ->
  is_ok (global_counts self flags jj) = true ->
  In s (shards self flags) -> (jobs < fst s)%nat ->
  ObsDataVector.get (snd s) jj jobs = Ok f ->
  QCflags.is_recognized Q f = false ->
  checked self flags jj = false.
Proof.
  intros Hd Hrec Hok Hin Hjobs Hget Hf. unfold checked, complete.
  destruct (global_counts self flags jj) as [g|] eqn:Hg; [|done].
  destruct (global_counts_exact self flags jj g Hg Hrec) as [-> ->].
  rewrite columns_counted_once by done.
  pose proof (ghits_missed self flags jj _ s jobs f Hin Hjobs Hget Hf) as Hlt.
  assert (0 <= ghits self flags jj (QCflags.is_recognized Q)) as Hge.
  { unfold ghits. apply sumZ_nonneg, List.Forall_forall.
    intros y (col & <- & _)%in_map_iff. apply hits_bounds. }
  rewrite wrap64_small by lia. apply Z.eqb_neq. lia.
Qed.

Lemma emit_categories info cats os :
  fold_left (fun os c => emit_if_positive info (fst c) (snd c) os) cats os
  = os ++ map (fun c => info +:+ pretty (fst c) +:+ snd c)
              (List.filter (fun c => 0 <? fst c) cats).
Proof.
  unfold size_t in *. revert os. induction cats as [|c cats IH]; intros os; simpl.
  { symmetry. apply app_nil_r. }
  rewrite IH. unfold emit_if_positive. destruct (0 <? fst c); [|reflexivity].
  simpl. rewrite <- app_assoc. reflexivity.
Qed.


Lemma for_loop_nothing {S} nv (body : nat -> nat -> S -> result S) s :
  for_loop nv (fun jv => for_loop 0 (body jv)) s = Ok s.
Proof.
  induction nv as [|nv IH]; [done|].
  change (for_loop (Datatypes.S nv) (fun jv => for_loop 0 (body jv)) s)
    with (do s' <- for_loop nv (fun jv => for_loop 0 (body jv)) s; Ok s').
  by rewrite IH.
Qed.

Lemma count_flag_unrecognized f c :
  QCflags.is_recognized Q f = false -> count_flag f c = c.
Proof.
  unfold QCflags.is_recognized, QCflags.recognized. cbn [existsb].
  rewrite !orb_false_iff.
  intros (H1 & H2 & H3 & H4 & H5 & H6 & H7 & H8 & H9 & H10 & H11 & _).
  unfold count_flag. rewrite H1, H2, H3, H4, H5, H6, H7, H8, H9, H10, H11.
  by destruct c.
Qed.

(** The counters after the collectives, when nothing wraps. *)
Lemma global_counts_all self flags jj g :
  global_counts self flags jj = Ok g ->
  records self flags < 2 ^ 64 ->
  g = exact_counts self flags jj.
Proof.
  intros ->%global_counts_spec Hrec. unfold records in *.
  unfold reduce_counts, exact_counts, ghits, columns.
  pose proof (fun proj p H =>
                reduce_field proj p jj (tail (shards self flags))
                  (ObsSpace.nlocs (obsdb_ self), flags) H Hrec) as Hf.
  cbn [fst snd] in Hf. unfold size_t in *.
  rewrite (Hf Counts.ipass (fun f => f =? QCflags.pass Q))
    by (intros; by rewrite tally_spec).
  rewrite (Hf Counts.imiss (fun f => f =? QCflags.missing Q))
    by (intros; by rewrite tally_spec).
  rewrite (Hf Counts.ipreq (fun f => f =? QCflags.preQC Q))
    by (intros; by rewrite tally_spec).
  rewrite (Hf Counts.ibnds (fun f => f =? QCflags.bounds Q))
    by (intros; by rewrite tally_spec).
  rewrite (Hf Counts.iwhit (fun f => f =? QCflags.domain Q))
    by (intros; by rewrite tally_spec).
  rewrite (Hf Counts.iblck (fun f => f =? QCflags.black Q))
    by (intros; by rewrite tally_spec).
  rewrite (Hf Counts.iherr (fun f => f =? QCflags.Hfailed Q))
    by (intros; by rewrite tally_spec).
  rewrite (Hf Counts.ithin (fun f => f =? QCflags.thinned Q))
    by (intros; by rewrite tally_spec).
  rewrite (Hf Counts.ifgss (fun f => f =? QCflags.fguess Q))
    by (intros; by rewrite tally_spec).
  rewrite (Hf Counts.ignss (fun f => (f =? 76) || (f =? 77)))
    by (intros; by rewrite tally_spec).
  rewrite map_map.
  rewrite (map_ext _ (fun s : nat * ObsDataVector.t int => Z.of_nat (fst s)))
    by (intros; by rewrite tally_spec).
  rewrite tally_spec. cbn [Counts.iobs].
  rewrite allReduce_exact; [reflexivity|lia| |done].
  apply List.Forall_forall. intros y (s & <- & _)%in_map_iff. lia.
Qed.

(** ** The properties of the specification *)

(** C1, initializer contract: the constructor succeeds on well-shaped
    inputs of agreeing dimensions, and afterwards a cell holds [missing]
    if and only if it held the integer sentinel, or its observed value or
    its error estimate was the float sentinel, or it already held
    [missing]; a cell where none of the three tests fires keeps the value
    it had. *)
Theorem initializer_contract obsdb config flags obserr :
  ObsDataVector.well_shaped flags = true ->
  ObsDataVector.well_shaped obserr = true ->
  dims_agree obsdb flags obserr = true ->
  exists self flags',
    QCmanager_ctor obsdb config (Some flags) (Some obserr) = Ok (self, flags')
    /\ forall jv jobs,
         (jv < ObsDataVector.nvars flags)%nat ->
         (jobs < ObsDataVector.nlocs flags)%nat ->
         exists f o e f',
           ObsDataVector.get flags jv jobs = Ok f
           /\ ObsDataVector.get
                (ObsDataVector_from obsdb (ObsSpace.obsvariables obsdb) "ObsValue")
                jv jobs = Ok o
           /\ ObsDataVector.get obserr jv jobs = Ok e
           /\ ObsDataVector.get flags' jv jobs = Ok f'
           /\ (f' = QCflags.missing Q <->
                 f = imiss \/ SFeqb o rmiss = true \/ SFeqb e rmiss = true
                 \/ f = QCflags.missing Q)
           /\ (f <> imiss -> SFeqb o rmiss = false -> SFeqb e rmiss = false ->
                f' = f).
Proof.
  intros Hwf Hwe Hd.
  pose proof (well_shaped_covers _ Hwf) as Hcf.
  pose proof (well_shaped_covers _ Hwe) as Hce.
  destruct (QCmanager_ctor_total obsdb config flags obserr Hcf Hce Hd) as [flags' Hrun].
  eexists _, flags'. split; [exact Hrun|].
  apply QCmanager_ctor_spec in Hrun as (err & [= <-] & _ & _ & [_ Hcell]).
  pose proof Hd as (H1 & H2 & H3 & H4)%dims_agree_checks.
  intros jv jobs Hjv Hjobs.
  destruct (get_total flags jv jobs) as (f & Hgf & Hf); [by apply Hcf|].
  destruct (get_total obserr jv jobs) as (e & Hge & He); [apply Hce; lia|].
  destruct (get_total (ObsDataVector_from obsdb (ObsSpace.obsvariables obsdb) "ObsValue")
              jv jobs) as (o & Hgo & Ho);
    [apply ObsDataVector_from_covers; lia|].
  exists f, o, e, (init_upd (ObsDataVector_from obsdb (ObsSpace.obsvariables obsdb) "ObsValue")
                     obserr jv jobs f).
  do 3 (split; [done|]). split.
  { apply get_Ok. rewrite Hcell, Hf. simpl. unfold block.
    rewrite H1, H2 in *. apply Nat.ltb_lt in Hjv, Hjobs. by rewrite Hjv, Hjobs. }
  unfold init_upd, missing_cond. rewrite Ho, He. simpl.
  destruct (Z.eqb_spec f imiss) as [->|Hne]; simpl.
  { split; [tauto|]. done. }
  destruct (SFeqb o rmiss); simpl; [split; [tauto|done]|].
  destruct (SFeqb e rmiss); simpl; [split; [tauto|done]|].
  split; [|done]. split; [tauto|]. intros [?|[?|[?|?]]]; done.
Qed.

(** C5, construction checks the dimensions: when the shape of the flag
    matrix differs from the shape of the observed values or of the error
    estimates, or the number of its rows from the number of observed
    variables, the constructor stops on a failed assertion and builds no
    object; when all of them agree it returns the object and the
    initialized matrix. *)
Theorem construction_checks_dimensions obsdb config flags obserr :
  ObsDataVector.well_shaped flags = true ->
  ObsDataVector.well_shaped obserr = true ->
  (dims_agree obsdb flags obserr = false ->
     exists text,
       QCmanager_ctor obsdb config (Some flags) (Some obserr)
       = Err (AssertionFailed text))
  /\ (dims_agree obsdb flags obserr = true ->
       exists self flags',
         QCmanager_ctor obsdb config (Some flags) (Some obserr) = Ok (self, flags')).
Proof.
  intros Hwf Hwe. split.
  - apply QCmanager_ctor_rejected.
  - intros Hd.
    destruct (QCmanager_ctor_total obsdb config flags obserr) as [flags' Hrun];
      [by apply well_shaped_covers..|done|].
    by eexists _, _.
Qed.

(** C9, initializer idempotence: constructing the filter again on the
    matrix the first construction left, with the same observation space
    and error estimates, returns that same matrix; and a cell that holds
    [missing] before the constructor runs holds [missing] after it. *)
Theorem initializer_idempotent obsdb config flags obserr :
  ObsDataVector.well_shaped flags = true ->
  ObsDataVector.well_shaped obserr = true ->
  dims_agree obsdb flags obserr = true ->
  exists self flags',
    QCmanager_ctor obsdb config (Some flags) (Some obserr) = Ok (self, flags')
    /\ QCmanager_ctor obsdb config (Some flags') (Some obserr) = Ok (self, flags')
    /\ forall jv jobs,
         ObsDataVector.get flags jv jobs = Ok (QCflags.missing Q) ->
         ObsDataVector.get flags' jv jobs = Ok (QCflags.missing Q).
Proof.
  intros Hwf Hwe Hd.
  pose proof (well_shaped_covers _ Hwf) as Hcf.
  pose proof (well_shaped_covers _ Hwe) as Hce.
  destruct (QCmanager_ctor_total obsdb config flags obserr Hcf Hce Hd) as [flags1 Hrun1].
  pose proof Hrun1 as (err & [= <-] & _ & _ & Hrw1)%QCmanager_ctor_spec.
  pose proof Hrw1 as [(Ht & Hv & Hl & Hlen) Hcell1].
  assert (dims_agree obsdb flags1 obserr = true) as Hd1.
  { apply dims_agree_checks. apply dims_agree_checks in Hd.
    unfold ObsDataVector.nvars, ObsDataVector.nlocs in *. rewrite <- Hv, <- Hl. done. }
  assert (covers (ObsDataVector.nvars flags1) (ObsDataVector.nlocs flags1) flags1) as Hcf1.
  { unfold ObsDataVector.nvars, ObsDataVector.nlocs in *. rewrite <- Hv, <- Hl.
    by eapply rewritten_covers. }
  destruct (QCmanager_ctor_total obsdb config flags1 obserr Hcf1 Hce Hd1) as [flags2 Hrun2].
  pose proof Hrun2 as (err & [= <-] & _ & _ & Hrw2)%QCmanager_ctor_spec.
  assert (flags2 = flags1) as ->
    by (eapply rewritten_twice; [apply init_upd_idem|exact Hrw1|exact Hrw2]).
  eexists _, flags1. do 2 (split; [done|]).
  intros jv jobs Hm%get_Ok. apply get_Ok. rewrite Hcell1, Hm. simpl.
  destruct (block _ _ jv jobs); [|done]. unfold init_upd.
  by destruct (missing_cond _ _ _ _ _).
Qed.

(** C2, updater contract: on a matrix the filter was built on and a
    simulated-observation vector with one entry per cell, [postFilter]
    returns, and a cell that held [pass] holds [Hfailed] if the entry at
    [V*jobs+jv] is the sentinel and [pass] otherwise, while a cell that
    did not hold [pass] keeps its value. *)
Theorem updater_contract self hofx flags :
  QCflags.pass Q = 0 ->
  fits self flags = true ->
  length hofx = (length (observed_ self) * ObsSpace.nlocs (obsdb_ self))%nat ->
  exists flags',
    postFilter self hofx flags = Ok flags'
    /\ forall jv jobs,
         (jv < length (observed_ self))%nat ->
         (jobs < ObsSpace.nlocs (obsdb_ self))%nat ->
         exists f h f',
           ObsDataVector.get flags jv jobs = Ok f
           /\ ObsVector_get hofx (length (observed_ self) * jobs + jv)%nat = Ok h
           /\ ObsDataVector.get flags' jv jobs = Ok f'
           /\ (f = QCflags.pass Q -> SFeqb h dmiss = true -> f' = QCflags.Hfailed Q)
           /\ (f = QCflags.pass Q -> SFeqb h dmiss = false -> f' = QCflags.pass Q)
           /\ (f <> QCflags.pass Q -> f' = f).
Proof.
  intros Hpass Hfit Hlen. pose proof (fits_covers _ _ Hfit) as Hc.
  destruct (postFilter_total self hofx flags Hc) as [flags' Hrun]; [lia|].
  exists flags'. split; [done|].
  apply postFilter_spec in Hrun as [_ Hcell].
  intros jv jobs Hjv Hjobs.
  destruct (get_total flags jv jobs) as (f & Hgf & Hf); [by apply Hc|].
  destruct (lookup_lt_is_Some_2 hofx (length (observed_ self) * jobs + jv)%nat)
    as [h Hh]; [nia|].
  exists f, h, (fail_upd (length (observed_ self)) hofx jv jobs f).
  split; [done|]. split; [unfold ObsVector_get; by rewrite Hh|]. split.
  { apply get_Ok. rewrite Hcell, Hf. simpl. unfold block.
    apply Nat.ltb_lt in Hjv, Hjobs. by rewrite Hjv, Hjobs. }
  unfold fail_upd, failed_cond. unfold ObsVector, double in *. rewrite Hh, Hpass. simpl.
  destruct (Z.eqb_spec f 0) as [->|Hne]; simpl.
  - destruct (SFeqb h dmiss); repeat split; done.
  - repeat split; done.
Qed.

(** C8, updater idempotence: running [postFilter] again with the same
    simulated-observation vector on the matrix the first run left
    returns that same matrix. *)
Theorem updater_idempotent self hofx flags :
  fits self flags = true ->
  (length (observed_ self) * ObsSpace.nlocs (obsdb_ self) <= length hofx)%nat ->
  exists flags',
    postFilter self hofx flags = Ok flags'
    /\ postFilter self hofx flags' = Ok flags'.
Proof.
  intros Hfit Hlen. pose proof (fits_covers _ _ Hfit) as Hc.
  destruct (postFilter_total self hofx flags Hc Hlen) as [flags1 Hrun1].
  pose proof (postFilter_spec _ _ _ _ Hrun1) as Hrw1.
  destruct (postFilter_total self hofx flags1) as [flags2 Hrun2];
    [by eapply rewritten_covers|done|].
  pose proof (postFilter_spec _ _ _ _ Hrun2) as Hrw2.
  assert (flags2 = flags1) as ->
    by (eapply rewritten_twice; [apply fail_upd_idem|exact Hrw1|exact Hrw2]).
  by exists flags1.
Qed.

Lemma run_op_cell o flags flags' jv jobs f :
  QCflags.pass Q = 0 ->
  QCflags.missing Q <> QCflags.pass Q ->
  run_op o flags = Ok flags' ->
  ObsDataVector.get flags jv jobs = Ok f ->
  f <> QCflags.pass Q ->
  exists f',
    ObsDataVector.get flags' jv jobs = Ok f'
    /\ f' <> QCflags.pass Q
    /\ (f' = f
        \/ (f' = QCflags.missing Q
            /\ exists obsdb config obserr, o = Initialize obsdb config obserr)).
Proof.
  intros Hpass Hmiss Hrun Hf%get_Ok Hne. destruct o as [obsdb config obserr|self hofx];
    cbn [run_op] in Hrun.
  - destruct (QCmanager_ctor obsdb config (Some flags) obserr) as [[self v]|] eqn:Hc;
      simpl in Hrun; [|done].
    injection Hrun as ->.
    apply QCmanager_ctor_spec in Hc as (err & _ & _ & _ & [_ Hcell]).
    eexists. split; [apply get_Ok; rewrite Hcell, Hf; reflexivity|].
    unfold init_upd. destruct (block _ _ jv jobs); [|by auto].
    destruct (missing_cond _ _ _ _ _); [|by auto]. split; [done|]. right. eauto.
  - apply postFilter_spec in Hrun as [_ Hcell].
    eexists. split; [apply get_Ok; rewrite Hcell, Hf; reflexivity|].
    unfold fail_upd, failed_cond.
    destruct (Z.eqb_spec f 0) as [->|_]; [congruence|]. simpl.
    destruct (block _ _ jv jobs); by auto.
Qed.

(** C4, never downgraded: with [pass] the zero code and [missing] a code
    of its own, a cell that holds a value other than [pass] holds a value
    other than [pass] after the constructor or [postFilter] has run, and
    after any sequence of them; and if one of the two changes such a
    cell, it is the constructor and the new value is [missing]. *)
Theorem never_downgraded :
  QCflags.pass Q = 0 ->
  QCflags.missing Q <> QCflags.pass Q ->
  (forall o flags flags' jv jobs f,
     run_op o flags = Ok flags' ->
     ObsDataVector.get flags jv jobs = Ok f ->
     f <> QCflags.pass Q ->
     exists f',
       ObsDataVector.get flags' jv jobs = Ok f'
       /\ f' <> QCflags.pass Q
       /\ (f' = f
           \/ (f' = QCflags.missing Q
               /\ exists obsdb config obserr, o = Initialize obsdb config obserr)))
  /\ (forall ops flags flags' jv jobs f,
       run_ops ops flags = Ok flags' ->
       ObsDataVector.get flags jv jobs = Ok f ->
       f <> QCflags.pass Q ->
       exists f',
         ObsDataVector.get flags' jv jobs = Ok f'
         /\ f' <> QCflags.pass Q
         /\ (f' = f \/ f' = QCflags.missing Q)).
Proof.
  intros Hpass Hmiss. split.
  - intros *. by apply run_op_cell.
  - intros ops. induction ops as [|o ops IH]; intros flags flags' jv jobs f Hrun Hf Hne;
      simpl in Hrun.
    + injection Hrun as <-. eauto.
    + destruct (run_op o flags) as [v|] eqn:Ho; [|done]. simpl in Hrun.
      destruct (run_op_cell o flags v jv jobs f Hpass Hmiss Ho Hf Hne)
        as (f1 & Hf1 & Hne1 & Hcase).
      destruct (IH v flags' jv jobs f1 Hrun Hf1 Hne1) as (f2 & Hf2 & Hne2 & Hcase2).
      exists f2. do 2 (split; [done|]).
      destruct Hcase2 as [-> | ->]; [|by right].
      destruct Hcase as [-> | [-> _]]; by auto.
Qed.

(** C3, as amended: the loop of [print] writes the lines of a variable
    and asserts completeness afterwards.  If [print] returns normally,
    the counts of every variable were complete and the lines of all
    variables were written; otherwise it stopped on the failed assertion
    of the first variable [jj] with incomplete counts, the lines of the
    variables up to and including [jj] are written, and no line of a
    later variable is. *)
Theorem completeness_checked_after_emitting self flags os :
  fits self flags = true ->
  peers_fit self = true ->
  (forall jj os', (jj < length (observed_ self))%nat ->
     exists text,
       print_var self flags jj os'
       = (os' ++ emitted self flags jj, ASSERT (checked self flags jj) text))
  /\ match print self flags os with
     | (out, Ok _) =>
         (forall jj, (jj < length (observed_ self))%nat ->
            checked self flags jj = true)
         /\ out = os ++ concat (map (emitted self flags)
                                    (seq 0 (length (observed_ self))))
     | (out, Err e) =>
         exists jj text,
           (jj < length (observed_ self))%nat
           /\ e = AssertionFailed text
           /\ checked self flags jj = false
           /\ (forall i, (i < jj)%nat -> checked self flags i = true)
           /\ out = os ++ concat (map (emitted self flags) (seq 0 (Datatypes.S jj)))
     end.
Proof.
  intros Hfit Hpeers. split.
  - intros jj os' Hjj. apply print_var_counted; [done|].
    by apply global_counts_total.
  - apply print_loop_trace; [done|]. intros jj Hjj. by apply global_counts_total.
Qed.

(** C6, unrecognized codes: with the codes of the table distinct and no
    overflow of the record count, a cell of some worker that holds a code
    without a counter changes no counter when it is counted, and [print]
    stops on a failed assertion. *)
Theorem unrecognized_code_fails self flags os s jv jobs f :
  QCflags.distinct Q = true ->
  fits self flags = true ->
  peers_fit self = true ->
  records self flags < 2 ^ 64 ->
  In s (shards self flags) ->
  (jv < length (observed_ self))%nat ->
  (jobs < fst s)%nat ->
  ObsDataVector.get (snd s) jv jobs = Ok f ->
  QCflags.is_recognized Q f = false ->
  (forall c, count_flag f c = c)
  /\ exists text, snd (print self flags os) = Err (AssertionFailed text).
Proof.
  intros Hd Hfit Hpeers Hrec Hin Hjv Hjobs Hget Hf. split.
  - intros c. by apply count_flag_unrecognized.
  - assert (checked self flags jv = false) as Hc.
    { eapply unrecognized_unchecked; try done. by apply global_counts_total. }
    pose proof (print_loop_trace self flags (length (observed_ self)) os
                  ltac:(done)
                  ltac:(intros; by apply global_counts_total)) as Htrace.
    unfold print. destruct (print_loop _ _ os) as [out [[]|e]]; simpl.
    + destruct Htrace as [Hall _]. rewrite Hall in Hc; done.
    + destruct Htrace as (jj & text & _ & -> & _). by exists text.
Qed.


(** C10, empty shard: on a worker without records the constructor and
    [postFilter] return the flag matrix as it was given; and when that
    worker is the only one, [print] writes for each variable the summary
    line with 0 passed out of 0 observations and nothing else, and
    returns normally. *)
Theorem empty_shard obsdb config flags obserr hofx os :
  ObsSpace.nlocs obsdb = 0%nat ->
  ObsSpace.comm obsdb = Comm.mk 0 [] ->
  dims_agree obsdb flags obserr = true ->
  let self := mkQCmanager obsdb config [] (ObsSpace.obsvariables obsdb) in
  QCmanager_ctor obsdb config (Some flags) (Some obserr) = Ok (self, flags)
  /\ postFilter self hofx flags = Ok flags
  /\ print self flags os
     = (os ++ map (fun name =>
                     ("QC " +:+ ObsDataVector.obstype flags +:+ " " +:+ name +:+ ": ")
                     +:+ "0 passed out of 0 observations.")
                  (ObsSpace.obsvariables obsdb),
        Ok tt).
Proof.
  intros Hnl Hcomm Hd self. split; [|split].
  - rewrite QCmanager_ctor_checked by done. unfold init_pass.
    rewrite Hnl. by rewrite for_loop_nothing.
  - unfold postFilter. simpl. rewrite Hnl. apply for_loop_nothing.
  - unfold print. simpl.
    assert (forall n, (n <= length (ObsSpace.obsvariables obsdb))%nat ->
              print_loop n (print_var self flags) os
              = (os ++ map (fun name =>
                     ("QC " +:+ ObsDataVector.obstype flags +:+ " " +:+ name +:+ ": ")
                     +:+ "0 passed out of 0 observations.")
                  (take n (ObsSpace.obsvariables obsdb)), Ok tt)) as Hloop.
    { induction n as [|n IH]; intros Hn; simpl.
      - by rewrite app_nil_r.
      - rewrite IH by lia.
        destruct (lookup_lt_is_Some_2 (ObsSpace.obsvariables obsdb) n) as [name Hname];
          [lia|].
        rewrite (take_S_r _ _ _ Hname), map_app, app_assoc. simpl.
        unfold print_var, global_counts, local_counts, peer_counts, emit, Variables_get.
        simpl. rewrite Hnl, Hcomm. simpl. unfold Variables in *. rewrite Hname.
        reflexivity. }
    rewrite Hloop by done. by rewrite firstn_all.
Qed.

(** ** Further properties of the filter *)

(** *** The shape of the matrix is kept *)

Lemma same_lookups_length {A B} (l1 : list A) (l2 : list B) :
  (forall i, is_Some (l1 !! i) <-> is_Some (l2 !! i)) -> length l1 = length l2.
Proof.
  intros H. destruct (Nat.lt_trichotomy (length l1) (length l2)) as [Hlt|[Heq|Hgt]]; [|done|].
  - destruct (proj2 (H (length l1)) (lookup_lt_is_Some_2 _ _ Hlt)) as [x Hx].
    apply lookup_lt_Some in Hx. lia.
  - destruct (proj1 (H (length l2)) (lookup_lt_is_Some_2 _ _ Hgt)) as [x Hx].
    apply lookup_lt_Some in Hx. lia.
Qed.

Lemma rewritten_well_shaped {T} (upd : nat -> nat -> T -> T) region a b :
  rewritten region upd a b ->
  ObsDataVector.well_shaped a = true -> ObsDataVector.well_shaped b = true.
Proof.
  intros [(_ & Hv & Hl & Hlen) Hcell]. unfold ObsDataVector.well_shaped.
  intros [Hrows Hall]%andb_true_iff. apply Nat.eqb_eq in Hrows.
  rewrite forallb_forall in Hall. apply andb_true_iff. split.
  - apply Nat.eqb_eq. lia.
  - apply forallb_forall. intros r Hr. apply Nat.eqb_eq.
    apply list_elem_of_In, list_elem_of_lookup in Hr as [jv Hjv].
    destruct (lookup_lt_is_Some_2 (ObsDataVector.rows_ a) jv) as [ra Hra].
    { apply lookup_lt_Some in Hjv. lia. }
    assert (length ra = ObsDataVector.nlocs_ a) as Hra_len.
    { apply Nat.eqb_eq, Hall, list_elem_of_In. eapply list_elem_of_lookup_2; eauto. }
    rewrite <- Hl, <- Hra_len. apply same_lookups_length. intros jobs.
    specialize (Hcell jv jobs). unfold ObsDataVector.cell in Hcell.
    rewrite Hjv, Hra in Hcell. rewrite Hcell.
    destruct (ra !! jobs); simpl; split; intros [? ?]; by eauto.
Qed.

Lemma rewritten_fits (upd : nat -> nat -> int -> int) region self a b :
  rewritten region upd a b -> fits self a = true -> fits self b = true.
Proof.
  intros Hrw. pose proof Hrw as [(_ & Hv & Hl & _) _]. unfold fits.
  intros [[Hw Hnv]%andb_true_iff Hnl]%andb_true_iff.
  unfold ObsDataVector.nvars, ObsDataVector.nlocs in *.
  rewrite <- Hv, <- Hl, Hnv, Hnl, (rewritten_well_shaped _ _ _ _ Hrw Hw). done.
Qed.

(** X1: the constructor hands over an object that fits the matrix it
    leaves: the matrix keeps its name and is well shaped, with one row per
    observed variable and one entry per location of the observation space
    the object refers to. *)
Theorem constructor_establishes_fit obsdb config flags obserr self flags' :
  ObsDataVector.well_shaped flags = true ->
  QCmanager_ctor obsdb config (Some flags) obserr = Ok (self, flags') ->
  fits self flags' = true
  /\ obsdb_ self = obsdb
  /\ observed_ self = ObsSpace.obsvariables obsdb
  /\ ObsDataVector.obstype flags' = ObsDataVector.obstype flags.
Proof.
  intros Hw (err & _ & Hd & -> & Hrw)%QCmanager_ctor_spec.
  pose proof Hrw as [(Ht & _) _].
  apply dims_agree_checks in Hd as (H1 & H2 & _).
  split; [|by repeat split].
  apply (rewritten_fits _ _ _ _ _ Hrw). unfold fits. simpl.
  rewrite Hw, H1, H2, !Nat.eqb_refl. done.
Qed.

(** X2: [postFilter] keeps the fit, so on a matrix the object fits any
    number of runs, each with a vector of at least one entry per cell,
    return, and the object still fits the matrix they leave. *)
Theorem postFilter_runs_keep_fit self hofxs flags :
  fits self flags = true ->
  Forall (fun hofx : ObsVector =>
            (length (observed_ self) * ObsSpace.nlocs (obsdb_ self) <= length hofx)%nat)
         hofxs ->
  exists flags',
    run_ops (map (Update self) hofxs) flags = Ok flags'
    /\ fits self flags' = true
    /\ ObsDataVector.obstype flags' = ObsDataVector.obstype flags.
Proof.
  intros Hfit Hall. revert flags Hfit.
  induction Hall as [|hofx hofxs Hlen _ IH]; intros flags Hfit; simpl.
  - by exists flags.
  - destruct (postFilter_total self hofx flags (fits_covers _ _ Hfit) Hlen) as [v Hv].
    rewrite Hv. simpl. pose proof (postFilter_spec _ _ _ _ Hv) as Hrw.
    destruct (IH v (rewritten_fits _ _ _ _ _ Hrw Hfit)) as (flags' & Hrun & Hfit' & Ht).
    exists flags'. do 2 (split; [done|]). destruct Hrw as [(Ht' & _) _]. congruence.
Qed.

(** *** How the two passes compose *)

Lemma fail_upd_commute nv (h1 h2 : ObsVector) jv jobs f :
  QCflags.Hfailed Q <> 0 ->
  fail_upd nv h2 jv jobs (fail_upd nv h1 jv jobs f)
  = fail_upd nv h1 jv jobs (fail_upd nv h2 jv jobs f).
Proof.
  intros HH%Z.eqb_neq. unfold fail_upd, failed_cond.
  destruct (f =? 0) eqn:Hf; simpl; [|by rewrite Hf].
  destruct (from_option _ false (_ !! _)) eqn:E1;
    destruct (from_option (fun h => SFeqb h dmiss) false ((h2 : list double) !! _)) eqn:E2;
    simpl; rewrite ?HH, ?Hf; simpl; rewrite ?E1, ?E2, ?HH; done.
Qed.

(** X3: with [Hfailed] different from 0, two runs of [postFilter] with two
    simulated-observation vectors leave the same matrix in either order. *)
Theorem postFilter_runs_commute self (h1 h2 : ObsVector) flags :
  QCflags.Hfailed Q <> 0 ->
  fits self flags = true ->
  (length (observed_ self) * ObsSpace.nlocs (obsdb_ self) <= length h1)%nat ->
  (length (observed_ self) * ObsSpace.nlocs (obsdb_ self) <= length h2)%nat ->
  exists flags',
    run_ops [Update self h1; Update self h2] flags = Ok flags'
    /\ run_ops [Update self h2; Update self h1] flags = Ok flags'.
Proof.
  intros HH Hfit Hl1 Hl2. pose proof (fits_covers _ _ Hfit) as Hc. simpl.
  destruct (postFilter_total self h1 flags Hc Hl1) as [a Ha].
  destruct (postFilter_total self h2 flags Hc Hl2) as [b Hb].
  pose proof (postFilter_spec _ _ _ _ Ha) as Hrwa.
  pose proof (postFilter_spec _ _ _ _ Hb) as Hrwb.
  destruct (postFilter_total self h2 a) as [a' Ha']; [by eapply rewritten_covers|done|].
  destruct (postFilter_total self h1 b) as [b' Hb']; [by eapply rewritten_covers|done|].
  rewrite Ha, Hb. simpl. rewrite Ha', Hb'. simpl. exists a'. split; [done|]. f_equal.
  apply postFilter_spec in Ha' as [Fa' Ca'], Hb' as [Fb' Cb'].
  destruct Hrwa as [Fa Ca], Hrwb as [Fb Cb].
  apply ObsDataVector_ext.
  - eapply same_frame_trans; [|exact Fa'].
    eapply same_frame_trans; [|exact Fa].
    destruct Fb as (?&?&?&?), Fb' as (?&?&?&?). repeat split; congruence.
  - intros jv jobs. rewrite Cb', Cb, Ca', Ca.
    destruct (ObsDataVector.cell flags jv jobs) as [f|]; simpl; [|done].
    destruct (block _ _ jv jobs); [|done]. f_equal. symmetry. by apply fail_upd_commute.
Qed.

(** X4: missing data takes precedence over a failed forward operator.
    With [missing] different from 0, a cell whose flag is the integer
    sentinel, or whose observed value or error estimate is the float
    sentinel, holds [missing] after the constructor and a run of
    [postFilter], whatever the simulated observations are. *)
Theorem missing_precedes_Hfailed obsdb config flags obserr self flags1 hofx flags2
    jv jobs f o e :
  QCflags.missing Q <> 0 ->
  QCmanager_ctor obsdb config (Some flags) (Some obserr) = Ok (self, flags1) ->
  postFilter self hofx flags1 = Ok flags2 ->
  (jv < length (ObsSpace.obsvariables obsdb))%nat ->
  (jobs < ObsSpace.nlocs obsdb)%nat ->
  ObsDataVector.get flags jv jobs = Ok f ->
  ObsDataVector.get
    (ObsDataVector_from obsdb (ObsSpace.obsvariables obsdb) "ObsValue") jv jobs = Ok o ->
  ObsDataVector.get obserr jv jobs = Ok e ->
  f = imiss \/ SFeqb o rmiss = true \/ SFeqb e rmiss = true ->
  ObsDataVector.get flags1 jv jobs = Ok (QCflags.missing Q)
  /\ ObsDataVector.get flags2 jv jobs = Ok (QCflags.missing Q).
Proof.
  intros HM (err & [= <-] & _ & -> & [_ C1])%QCmanager_ctor_spec [_ C2]%postFilter_spec
         Hjv Hjobs Hf%get_Ok Ho%get_Ok He%get_Ok Hmiss.
  assert (ObsDataVector.cell flags1 jv jobs = Some (QCflags.missing Q)) as H1.
  { rewrite C1, Hf. simpl. unfold block.
    apply Nat.ltb_lt in Hjv, Hjobs. rewrite Hjv, Hjobs. simpl.
    unfold init_upd, missing_cond. rewrite Ho, He. simpl.
    destruct Hmiss as [-> | [-> | ->]]; rewrite ?Z.eqb_refl, ?orb_true_r; done. }
  split; apply get_Ok; [done|]. rewrite C2, H1. simpl.
  unfold fail_upd, failed_cond. apply Z.eqb_neq in HM. rewrite HM. simpl.
  by destruct (block _ _ jv jobs).
Qed.

(** *** Only recognized codes are written *)

Lemma missing_recognized : QCflags.is_recognized Q (QCflags.missing Q) = true.
Proof.
  unfold QCflags.is_recognized, QCflags.recognized. cbn [existsb].
  by rewrite Z.eqb_refl, !orb_true_r.
Qed.

Lemma Hfailed_recognized : QCflags.is_recognized Q (QCflags.Hfailed Q) = true.
Proof.
  unfold QCflags.is_recognized, QCflags.recognized. cbn [existsb].
  by rewrite Z.eqb_refl, !orb_true_r.
Qed.

Lemma run_op_recognized o flags flags' :
  all_recognized flags -> run_op o flags = Ok flags' -> all_recognized flags'.
Proof.
  intros Hall Hrun jv jobs f'. destruct o as [obsdb config obserr|self hofx];
    cbn [run_op] in Hrun.
  - destruct (QCmanager_ctor obsdb config (Some flags) obserr) as [[self v]|] eqn:Hc;
      simpl in Hrun; [|done].
    injection Hrun as ->.
    apply QCmanager_ctor_spec in Hc as (err & _ & _ & _ & [_ Hcell]). rewrite Hcell.
    destruct (ObsDataVector.cell flags jv jobs) as [f|] eqn:Hf; simpl; [|done].
    intros [= <-]. destruct (block _ _ jv jobs); [|by eapply Hall].
    unfold init_upd. destruct (missing_cond _ _ _ _ _);
      [apply missing_recognized|by eapply Hall].
  - apply postFilter_spec in Hrun as [_ Hcell]. rewrite Hcell.
    destruct (ObsDataVector.cell flags jv jobs) as [f|] eqn:Hf; simpl; [|done].
    intros [= <-]. destruct (block _ _ jv jobs); [|by eapply Hall].
    unfold fail_upd. destruct (failed_cond _ _ _ _ _);
      [apply Hfailed_recognized|by eapply Hall].
Qed.

(** X7: the constructor and [postFilter] write recognized codes only: if
    every cell holds a code the reporter has a counter for, so does every
    cell after any sequence of the two. *)
Theorem recognized_codes_kept ops flags flags' :
  all_recognized flags -> run_ops ops flags = Ok flags' -> all_recognized flags'.
Proof.
  revert flags. induction ops as [|o ops IH]; intros flags Hall Hrun; simpl in Hrun.
  - by injection Hrun as <-.
  - destruct (run_op o flags) as [v|] eqn:Ho; simpl in Hrun; [|done].
    apply (IH v); [|done]. by eapply run_op_recognized.
Qed.

(** *** The counts of the report *)

(** X5: when the record count of all workers is below 2^64, the counters
    every worker holds after the collectives are exact: the total is the
    number of records of all workers, and each category counter is the
    number of cells of the variable, over all workers, that hold its
    code. *)
Theorem global_counts_are_exact self flags jj g :
  records self flags < 2 ^ 64 ->
  global_counts self flags jj = Ok g ->
  g = exact_counts self flags jj.
Proof. intros Hrec Hg. by apply global_counts_all. Qed.

Lemma local_counts_reads nl flags jj c :
  local_counts nl flags jj = Ok c ->
  forall jobs, (jobs < nl)%nat -> is_Some (ObsDataVector.cell flags jj jobs).
Proof.
  intros Hrun.
  apply (for_loop_partial
           (fun k _ => forall jobs, (jobs < k)%nat ->
                         is_Some (ObsDataVector.cell flags jj jobs))
           _ _ _ _ Hrun).
  - intros jobs Hjobs. lia.
  - intros k t t' _ Hinv Hbody jobs Hjobs.
    destruct (decide (jobs = k)) as [->|]; [|apply Hinv; lia].
    destruct (ObsDataVector.get flags jj k) as [f|] eqn:Hget; [|done].
    apply get_Ok in Hget. by eexists.
Qed.

Lemma column_full nl flags jj :
  (forall jobs, (jobs < nl)%nat -> is_Some (ObsDataVector.cell flags jj jobs)) ->
  length (column nl flags jj) = nl.
Proof.
  intros Hc. unfold column. destruct nl as [|nl]; [done|].
  destruct (Hc nl ltac:(lia)) as [f Hf]. unfold ObsDataVector.cell in Hf.
  destruct (ObsDataVector.rows_ flags !! jj) as [r|]; [|done].
  change (length (take (Datatypes.S nl) r) = Datatypes.S nl).
  rewrite length_take. apply lookup_lt_Some in Hf. lia.
Qed.

Lemma mapM_ok_each {A B} (f : A -> result B) l bs :
  mapM f l = Ok bs -> forall a, In a l -> exists b, f a = Ok b.
Proof.
  intros H%mapM_spec. induction H as [|a b l bs Hab _ IH]; [done|].
  intros x [<-|Hin]; [by exists b|by apply IH].
Qed.

Lemma global_counts_reads self flags jj g :
  global_counts self flags jj = Ok g ->
  forall s, In s (shards self flags) ->
    exists c, local_counts (fst s) (snd s) jj = Ok c.
Proof.
  unfold global_counts, peer_counts, shards.
  destruct (local_counts _ flags jj) as [c|] eqn:Hc; [|done]. simpl.
  destruct (mapM _ _) as [ps|] eqn:Hps; [|done]. intros _ s [<-|Hin]; [by exists c|].
  apply in_map_iff in Hin as (pf & <- & Hpf).
  by apply (mapM_ok_each _ _ _ Hps).
Qed.

Lemma hits_all p col :
  (forall f, In f col -> p f = true) -> hits p col = Z.of_nat (length col).
Proof.
  induction col as [|f col IH]; intros Hall; [done|].
  rewrite hits_cons, IH by (intros; apply Hall; by right).
  rewrite (Hall f) by (by left). simpl length. simpl weight. lia.
Qed.

Lemma column_member nl flags jj f :
  In f (column nl flags jj) ->
  exists jobs, (jobs < nl)%nat /\ ObsDataVector.get flags jj jobs = Ok f.
Proof.
  unfold column. intros Hin%list_elem_of_In.
  apply list_elem_of_lookup in Hin as [jobs Hjobs].
  apply lookup_take_Some in Hjobs as [Hrow Hlt]. exists jobs. split; [done|].
  apply get_Ok. unfold ObsDataVector.cell.
  destruct (ObsDataVector.rows_ flags !! jj); [exact Hrow|].
  apply lookup_lt_Some in Hrow. simpl in Hrow. lia.
Qed.

Lemma sumZ_ext_in {A} (h1 h2 : A -> Z) l :
  (forall a, In a l -> h1 a = h2 a) -> sumZ (map h1 l) = sumZ (map h2 l).
Proof. intros H. f_equal. by apply map_ext_in. Qed.

(** With distinct codes and no overflow, the assertion of a variable holds
    exactly when every cell the workers counted is recognized. *)
Lemma complete_iff_recognized self flags jj g :
  QCflags.distinct Q = true ->
  records self flags < 2 ^ 64 ->
  global_counts self flags jj = Ok g ->
  complete g = true <->
  (forall s f, In s (shards self flags) -> In f (column (fst s) (snd s) jj) ->
     QCflags.is_recognized Q f = true).
Proof.
  intros Hd Hrec Hg. unfold complete.
  destruct (global_counts_exact self flags jj g Hg Hrec) as [-> ->].
  rewrite columns_counted_once by done.
  assert (0 <= ghits self flags jj (QCflags.is_recognized Q)) as Hge.
  { unfold ghits. apply sumZ_nonneg, List.Forall_forall.
    intros y (col & <- & _)%in_map_iff. apply hits_bounds. }
  pose proof (ghits_le_records self flags jj (QCflags.is_recognized Q)) as Hle.
  rewrite wrap64_small by lia. rewrite Z.eqb_eq. split.
  - intros Heq s f Hs Hf.
    destruct (QCflags.is_recognized Q f) eqn:Hrecog; [done|].
    apply column_member in Hf as (jobs & Hjobs & Hget).
    pose proof (ghits_missed self flags jj _ s jobs f Hs Hjobs Hget Hrecog). lia.
  - intros Hall. unfold ghits, records, columns. rewrite map_map.
    apply sumZ_ext_in. intros s Hs.
    rewrite hits_all by (intros f Hf; by apply (Hall s)).
    destruct (global_counts_reads self flags jj g Hg s Hs) as [c Hc].
    by rewrite (column_full _ _ _ (local_counts_reads _ _ _ _ Hc)).
Qed.

Lemma print_ok_iff_recognized self flags os :
  QCflags.distinct Q = true ->
  fits self flags = true ->
  peers_fit self = true ->
  records self flags < 2 ^ 64 ->
  snd (print self flags os) = Ok tt <->
  (forall jj s f,
     (jj < length (observed_ self))%nat ->
     In s (shards self flags) -> In f (column (fst s) (snd s) jj) ->
     QCflags.is_recognized Q f = true).
Proof.
  intros Hd Hfit Hpeers Hrec.
  assert (forall jj, (jj < length (observed_ self))%nat ->
            checked self flags jj = true <->
            (forall s f, In s (shards self flags) ->
               In f (column (fst s) (snd s) jj) ->
               QCflags.is_recognized Q f = true)) as Hchecked.
  { intros jj Hjj. unfold checked.
    pose proof (global_counts_total self flags jj Hfit Hpeers Hjj) as Hok.
    destruct (global_counts self flags jj) as [g|] eqn:Hg; [|done].
    by apply complete_iff_recognized. }
  pose proof (print_loop_trace self flags (length (observed_ self)) os
                ltac:(done) ltac:(intros; by apply global_counts_total)) as Htrace.
  unfold print. destruct (print_loop _ _ os) as [out [[]|e]]; simpl.
  - destruct Htrace as [Hall _]. split; [|done].
    intros _ jj s f Hjj. apply Hchecked; [done|]. by apply Hall.
  - destruct Htrace as (jj & text & Hjj & -> & Hc & _). split; [done|].
    intros Hall. assert (checked self flags jj = true) as Hc'
      by (apply Hchecked; [done|]; intros s f; by apply Hall).
    congruence.
Qed.

(** X6: with distinct codes, shards of the checked shape and no overflow of
    the record count, [print] returns normally exactly when every cell of
    every worker holds a recognized code. *)
Theorem print_succeeds_iff_recognized self flags os :
  QCflags.distinct Q = true ->
  fits self flags = true ->
  peers_fit self = true ->
  records self flags < 2 ^ 64 ->
  snd (print self flags os) = Ok tt <->
  (forall jj s f,
     (jj < length (observed_ self))%nat ->
     In s (shards self flags) -> In f (column (fst s) (snd s) jj) ->
     QCflags.is_recognized Q f = true).
Proof. apply print_ok_iff_recognized. Qed.

Lemma complete_true g : complete g = true -> category_sum g = Counts.iobs g.
Proof. unfold complete. intros Hc. by apply Z.eqb_eq. Qed.

(** X11: the numbers of a report add up.  With distinct codes and no
    overflow, when the assertion of a variable holds the ten category
    counters sum, as integers, to the total. *)
Theorem report_numbers_add_up self flags jj g :
  QCflags.distinct Q = true ->
  records self flags < 2 ^ 64 ->
  global_counts self flags jj = Ok g ->
  complete g = true ->
  Counts.ipass g + Counts.imiss g + Counts.ipreq g + Counts.ibnds g
  + Counts.iwhit g + Counts.iblck g + Counts.iherr g + Counts.ithin g
  + Counts.ifgss g + Counts.ignss g
  = Counts.iobs g.
Proof.
  intros Hd Hrec Hg Hc%complete_true.
  rewrite category_sum_wrap in Hc. revert Hc.
  pose proof (global_counts_all self flags jj g Hg Hrec) as Heq.
  assert (Counts.ipass g = ghits self flags jj (fun f => f =? QCflags.pass Q))
    as -> by (by rewrite Heq).
  assert (Counts.imiss g = ghits self flags jj (fun f => f =? QCflags.missing Q))
    as -> by (by rewrite Heq).
  assert (Counts.ipreq g = ghits self flags jj (fun f => f =? QCflags.preQC Q))
    as -> by (by rewrite Heq).
  assert (Counts.ibnds g = ghits self flags jj (fun f => f =? QCflags.bounds Q))
    as -> by (by rewrite Heq).
  assert (Counts.iwhit g = ghits self flags jj (fun f => f =? QCflags.domain Q))
    as -> by (by rewrite Heq).
  assert (Counts.iblck g = ghits self flags jj (fun f => f =? QCflags.black Q))
    as -> by (by rewrite Heq).
  assert (Counts.iherr g = ghits self flags jj (fun f => f =? QCflags.Hfailed Q))
    as -> by (by rewrite Heq).
  assert (Counts.ithin g = ghits self flags jj (fun f => f =? QCflags.thinned Q))
    as -> by (by rewrite Heq).
  assert (Counts.ifgss g = ghits self flags jj (fun f => f =? QCflags.fguess Q))
    as -> by (by rewrite Heq).
  assert (Counts.ignss g = ghits self flags jj (fun f => (f =? 76) || (f =? 77)))
    as -> by (by rewrite Heq).
  pose proof (columns_counted_once self flags jj Hd) as Hsum.
  unfold category_hits in Hsum. rewrite Hsum. clear Hsum Heq Hg.
  pose proof (ghits_le_records self flags jj (QCflags.is_recognized Q)) as Hle.
  assert (0 <= ghits self flags jj (QCflags.is_recognized Q)) as Hge.
  { unfold ghits. apply sumZ_nonneg, List.Forall_forall.
    intros y (col & <- & _)%in_map_iff. apply hits_bounds. }
  rewrite wrap64_small by lia. done.
Qed.

(** *** The collectives seen from any worker *)

Lemma allReduce_canonical others x :
  0 <= x < 2 ^ 64 -> allReduceInPlace others x = wrap64 (x + sumZ others).
Proof.
  unfold allReduceInPlace. revert x. induction others as [|a l IH]; intros x Hx.
  - cbn [fold_left]. change (sumZ []) with 0. rewrite Z.add_0_r.
    symmetry. by apply wrap64_small.
  - cbn [fold_left]. rewrite IH by apply wrap64_bounds. rewrite sumZ_cons.
    unfold add64, wrap64. rewrite Zplus_mod_idemp_l. f_equal. lia.
Qed.

Lemma sumZ_perm l1 l2 : Permutation l1 l2 -> sumZ l1 = sumZ l2.
Proof.
  induction 1 as [|x l l' _ IH|x y l|l l' l'' _ IH1 _ IH2]; rewrite ?sumZ_cons.
  - done.
  - by rewrite IH.
  - lia.
  - congruence.
Qed.

Lemma tally_canonical nl col proj :
  Z.of_nat nl < 2 ^ 64 -> In proj counters -> 0 <= proj (tally nl col) < 2 ^ 64.
Proof.
  intros Hnl Hin. rewrite tally_spec. unfold counters in Hin.
  repeat (destruct Hin as [<-|Hin];
          [cbn [Counts.iobs Counts.ipass Counts.imiss Counts.ipreq Counts.ibnds
                Counts.iwhit Counts.iblck Counts.iherr Counts.ifgss Counts.ignss
                Counts.ithin];
           first [apply wrap64_bounds|lia]|]).
  destruct Hin.
Qed.

Lemma global_counts_sums self flags jj g :
  global_counts self flags jj = Ok g ->
  Z.of_nat (ObsSpace.nlocs (obsdb_ self)) < 2 ^ 64 ->
  g = counts_of (fun proj =>
        wrap64 (sumZ (map (fun s => proj (tally (fst s) (column (fst s) (snd s) jj)))
                          (shards self flags)))).
Proof.
  intros ->%global_counts_spec Hnl.
  assert (forall proj, In proj counters ->
            allReduceInPlace
              (map proj (map (fun s => tally (fst s) (column (fst s) (snd s) jj))
                             (tail (shards self flags))))
              (proj (tally (ObsSpace.nlocs (obsdb_ self))
                           (column (ObsSpace.nlocs (obsdb_ self)) flags jj)))
            = wrap64 (sumZ (map (fun s => proj (tally (fst s) (column (fst s) (snd s) jj)))
                                (shards self flags)))) as Hf.
  { intros proj Hin. rewrite allReduce_canonical by (by apply tally_canonical).
    by rewrite map_map. }
  unfold reduce_counts, counts_of, counters in *. unfold size_t in *.
  f_equal; apply Hf; by repeat (first [left; reflexivity|right]).
Qed.

Lemma for_loop_error {S} n body (s : S) e e0 :
  (forall i t e, body i t = Err e -> e = e0) ->
  for_loop n body s = Err e -> e = e0.
Proof.
  intros Hbody. induction n as [|n IH]; simpl; [done|].
  destruct (for_loop n body s) as [t|e']; simpl.
  - apply Hbody.
  - intros [= <-]. by apply IH.
Qed.

Lemma local_counts_error nl flags jj e :
  local_counts nl flags jj = Err e -> e = OutOfRange.
Proof.
  apply for_loop_error. intros jobs c e'. unfold ObsDataVector.get.
  destruct (ObsDataVector.cell flags jj jobs); simpl; congruence.
Qed.

Lemma mapM_error {A B} (f : A -> result B) l e e0 :
  (forall a e, f a = Err e -> e = e0) -> mapM f l = Err e -> e = e0.
Proof.
  intros Hf. induction l as [|a l IH]; simpl; [done|].
  destruct (f a) as [b|e'] eqn:Ha; simpl; [|intros [= <-]; by eapply Hf].
  destruct (mapM f l) as [bs|e']; simpl; [done|]. intros [= <-]. by apply IH.
Qed.

Lemma global_counts_error self flags jj e :
  global_counts self flags jj = Err e -> e = OutOfRange.
Proof.
  unfold global_counts, peer_counts.
  destruct (local_counts _ flags jj) as [c|e'] eqn:Hc; simpl.
  - destruct (mapM _ _) as [ps|e'] eqn:Hps; simpl; [done|]. intros [= <-].
    eapply mapM_error; [|exact Hps]. intros pf e''. apply local_counts_error.
  - intros [= <-]. by eapply local_counts_error.
Qed.

Lemma global_counts_ok_iff self flags jj :
  is_ok (global_counts self flags jj) = true <->
  (forall s, In s (shards self flags) ->
     is_ok (local_counts (fst s) (snd s) jj) = true).
Proof.
  split.
  - destruct (global_counts self flags jj) as [g|] eqn:Hg; [|done]. intros _ s Hs.
    by destruct (global_counts_reads self flags jj g Hg s Hs) as [c ->].
  - intros Hall. unfold global_counts, peer_counts.
    pose proof (Hall _ (or_introl eq_refl)) as H0. simpl in H0.
    destruct (local_counts _ flags jj); [|done]. simpl.
    pose proof (mapM_total
                  (fun pf => local_counts (ObsDataVector.nlocs pf) pf jj)
                  (Comm.peers (ObsSpace.comm (obsdb_ self)))) as Hp.
    destruct (mapM _ _); [done|]. apply Hp. intros pf Hpf.
    apply (Hall (ObsDataVector.nlocs pf, pf)). right. apply in_map_iff. by exists pf.
Qed.

(** X9: the collectives give every worker the same counters.  Two workers
    of one communicator see the same shards in a different order; the
    counters they hold for a variable after the collectives are the same,
    and so is the outcome of the assertion. *)
Theorem global_counts_same_on_every_worker self1 flags1 self2 flags2 jj :
  Permutation (shards self1 flags1) (shards self2 flags2) ->
  Z.of_nat (ObsSpace.nlocs (obsdb_ self1)) < 2 ^ 64 ->
  Z.of_nat (ObsSpace.nlocs (obsdb_ self2)) < 2 ^ 64 ->
  global_counts self1 flags1 jj = global_counts self2 flags2 jj
  /\ checked self1 flags1 jj = checked self2 flags2 jj.
Proof.
  intros Hperm Hn1 Hn2.
  assert (global_counts self1 flags1 jj = global_counts self2 flags2 jj) as Heq.
  { destruct (global_counts self1 flags1 jj) as [g1|e1] eqn:H1,
             (global_counts self2 flags2 jj) as [g2|e2] eqn:H2.
    - rewrite (global_counts_sums _ _ _ _ H1 Hn1), (global_counts_sums _ _ _ _ H2 Hn2).
      f_equal. unfold counts_of.
      f_equal; f_equal; apply sumZ_perm, Permutation_map, Hperm.
    - assert (is_ok (global_counts self2 flags2 jj) = true) as Hok; [|by rewrite H2 in Hok].
      apply global_counts_ok_iff. intros s Hs.
      apply (Permutation_in _ (Permutation_sym Hperm)) in Hs.
      by destruct (global_counts_reads _ _ _ _ H1 s Hs) as [c ->].
    - assert (is_ok (global_counts self1 flags1 jj) = true) as Hok; [|by rewrite H1 in Hok].
      apply global_counts_ok_iff. intros s Hs.
      apply (Permutation_in _ Hperm) in Hs.
      by destruct (global_counts_reads _ _ _ _ H2 s Hs) as [c ->].
    - by rewrite (global_counts_error _ _ _ _ H1), (global_counts_error _ _ _ _ H2). }
  split; [done|]. unfold checked. by rewrite Heq.
Qed.

(** *** What [print] does to the stream *)

Lemma print_var_app self flags jj os :
  print_var self flags jj os
  = (os ++ fst (print_var self flags jj []), snd (print_var self flags jj [])).
Proof.
  unfold print_var. destruct (global_counts self flags jj) as [g|];
    [|cbn [fst snd]; by rewrite app_nil_r].
  rewrite (emit_app _ _ _ _ os).
  destruct (emit self flags jj g []) as [l|]; cbn [and_then fst snd];
    [done|by rewrite app_nil_r].
Qed.

Lemma print_loop_app self flags n os :
  print_loop n (print_var self flags) os
  = (os ++ fst (print_loop n (print_var self flags) []),
     snd (print_loop n (print_var self flags) [])).
Proof.
  induction n as [|n IH]; cbn [print_loop].
  - simpl. by rewrite app_nil_r.
  - rewrite IH. destruct (print_loop n (print_var self flags) []) as [a [[]|e]];
      cbn [fst snd]; [|done].
    rewrite (print_var_app _ _ n (os ++ a)), (print_var_app _ _ n a).
    cbn [fst snd]. by rewrite app_assoc.
Qed.

(** X10: [print] only appends.  What is on the stream stays in front,
    unchanged, and neither the lines added nor the outcome depend on it. *)
Theorem print_only_appends self flags os :
  print self flags os
  = (os ++ fst (print self flags []), snd (print self flags [])).
Proof. apply print_loop_app. Qed.

Lemma report_length info g os :
  (length os + 1 <= length (report info g os) <= length os + 10)%nat.
Proof.
  change (report info g os)
    with (fold_left (fun os c => emit_if_positive info (fst c) (snd c) os)
                    (categories g) os ++ [summary_line info g]).
  rewrite emit_categories, !length_app, length_map.
  change (length [summary_line info g]) with 1%nat.
  pose proof (List.filter_length_le (fun c : Z * string => 0 <? fst c) (categories g)) as H.
  change (length (categories g)) with 9%nat in H. unfold size_t in *. lia.
Qed.

Lemma print_var_length self flags jj os :
  (length os <= length (fst (print_var self flags jj os)) <= length os + 10)%nat
  /\ (Comm.rank (ObsSpace.comm (obsdb_ self)) = 0%nat ->
      is_ok (snd (print_var self flags jj os)) = true ->
      (length os + 1 <= length (fst (print_var self flags jj os)))%nat).
Proof.
  unfold print_var, emit. destruct (global_counts self flags jj) as [g|];
    [|cbn [fst snd is_ok]; split; [lia|done]].
  destruct (Nat.eqb_spec (Comm.rank (ObsSpace.comm (obsdb_ self))) 0) as [Hr|Hr].
  - destruct (Variables_get (observed_ self) jj) as [name|]; cbn [and_then fst snd is_ok];
      [|split; [lia|done]].
    pose proof (report_length
                  ("QC " +:+ ObsDataVector.obstype flags +:+ " " +:+ name +:+ ": ")
                  g os).
    split; [lia|]. intros. lia.
  - cbn [fst snd]. split; [lia|]. intros. lia.
Qed.

(** X12: [print] writes at most ten lines for each observed variable, and
    a [print] that returns normally on the worker of rank 0 has written at
    least one line for each. *)
Theorem print_line_bounds self flags os :
  (length os <= length (fst (print self flags os))
   <= length os + 10 * length (observed_ self))%nat
  /\ (Comm.rank (ObsSpace.comm (obsdb_ self)) = 0%nat ->
      snd (print self flags os) = Ok tt ->
      (length os + length (observed_ self) <= length (fst (print self flags os)))%nat).
Proof.
  unfold print. generalize (length (observed_ self)) as n.
  assert (forall n,
            (length os <= length (fst (print_loop n (print_var self flags) os))
             <= length os + 10 * n)%nat
            /\ (Comm.rank (ObsSpace.comm (obsdb_ self)) = 0%nat ->
                is_ok (snd (print_loop n (print_var self flags) os)) = true ->
                (length os + n <= length (fst (print_loop n (print_var self flags) os)))%nat))
    as Hloop.
  { induction n as [|n [IH1 IH2]]; cbn [print_loop].
    - simpl. split; [lia|]. intros. lia.
    - destruct (print_loop n (print_var self flags) os) as [os' [[]|e]];
        cbn [fst snd] in *.
      + destruct (print_var_length self flags n os') as [H1 H2].
        split; [lia|]. intros Hr Hok. specialize (IH2 Hr eq_refl).
        specialize (H2 Hr Hok). lia.
      + split; [lia|]. done. }
  intros n. destruct (Hloop n) as [H1 H2]. split; [done|].
  intros Hr Hok. apply H2; [done|]. by rewrite Hok.
Qed.

(** *** A whole cycle *)

(** X8: a cycle on recognized codes runs to its end.  With distinct codes,
    well-shaped inputs of agreeing dimensions, a simulated-observation
    vector with an entry for every cell, recognized codes in every cell of
    this worker and of its peers, and no overflow of the record count, the
    constructor, [postFilter] and the destructor all return; the trace log
    has gained their six lines, and the info log the report. *)
Theorem cycle_completes obsdb config flags obserr hofx log :
  let self := mkQCmanager obsdb config [] (ObsSpace.obsvariables obsdb) in
  QCflags.distinct Q = true ->
  ObsDataVector.well_shaped flags = true ->
  ObsDataVector.well_shaped obserr = true ->
  dims_agree obsdb flags obserr = true ->
  (length (ObsSpace.obsvariables obsdb) * ObsSpace.nlocs obsdb <= length hofx)%nat ->
  all_recognized flags ->
  peers_fit self = true ->
  (forall pf, In pf (Comm.peers (ObsSpace.comm obsdb)) -> all_recognized pf) ->
  records self flags < 2 ^ 64 ->
  exists flags1 flags2,
    let log1 :=
      Log.mk (Log.trace log ++ ["QCmanager::QCmanager starting " +:+ config;
                                "QCmanager::QCmanager done"])
             (Log.info log) in
    let log2 :=
      Log.mk (Log.trace log1 ++ ["QCmanager postFilter"; "QCmanager postFilter done"])
             (Log.info log) in
    let log3 :=
      Log.mk (Log.trace log2 ++ ["QCmanager::~QCmanager starting";
                                 "QCmanager::~QCmanager done"])
             (Log.info log ++ fst (print self flags2 [])) in
    QCmanager_ctor_traced obsdb config (Some flags) (Some obserr) log
    = (log1, Ok (self, flags1))
    /\ postFilter_traced self hofx flags1 log1 = (log2, Ok flags2)
    /\ QCmanager_dtor self flags2 log2 = (log3, Ok tt).
Proof.
  intros self Hd Hwf Hwe Hdims Hlen Hrecog Hpeers Hpeers_rec Hrec.
  destruct (QCmanager_ctor_total obsdb config flags obserr
              (well_shaped_covers _ Hwf) (well_shaped_covers _ Hwe) Hdims)
    as [flags1 Hrun1].
  fold self in Hrun1.
  pose proof Hrun1 as (err & [= <-] & _ & _ & Hrw1)%QCmanager_ctor_spec.
  assert (fits self flags = true) as Hfit0.
  { pose proof Hdims as (H1 & H2 & _)%dims_agree_checks. unfold fits, self. simpl.
    rewrite Hwf, H1, H2, !Nat.eqb_refl. done. }
  pose proof (rewritten_fits _ _ _ _ _ Hrw1 Hfit0) as Hfit1.
  assert (all_recognized flags1) as Hrec1.
  { apply (run_op_recognized (Initialize obsdb config (Some obserr)) flags); [done|].
    cbn [run_op]. by rewrite Hrun1. }
  destruct (postFilter_total self hofx flags1 (fits_covers _ _ Hfit1) Hlen)
    as [flags2 Hrun2].
  pose proof (postFilter_spec _ _ _ _ Hrun2) as Hrw2.
  pose proof (rewritten_fits _ _ _ _ _ Hrw2 Hfit1) as Hfit2.
  assert (all_recognized flags2) as Hrec2
    by (by apply (run_op_recognized (Update self hofx) flags1)).
  assert (snd (print self flags2 (Log.info log)) = Ok tt) as Hprint.
  { apply print_ok_iff_recognized; [done..|exact Hrec|].
    intros jj s f Hjj [<-|Hs] Hf.
    - apply column_member in Hf as (jobs & _ & Hget%get_Ok). by eapply Hrec2.
    - apply in_map_iff in Hs as (pf & <- & Hpf).
      apply column_member in Hf as (jobs & _ & Hget%get_Ok).
      by eapply (Hpeers_rec pf). }
  exists flags1, flags2. cbv zeta. split; [|split].
  - unfold QCmanager_ctor_traced, trace_line. rewrite Hrun1.
    cbn [Log.trace Log.info]. by rewrite <- app_assoc.
  - unfold postFilter_traced, trace_line. rewrite Hrun2.
    cbn [Log.trace Log.info]. by rewrite <- !app_assoc.
  - unfold QCmanager_dtor, trace_line. cbn [Log.trace Log.info].
    unfold print in *.
    rewrite (print_loop_app self flags2 _ (Log.info log)) in Hprint |- *.
    cbn [snd] in Hprint. rewrite Hprint. cbn [Log.trace Log.info].
    by rewrite <- !app_assoc.
Qed.

Lemma all_recognized_forallb flags :
  forallb (forallb (QCflags.is_recognized Q)) (ObsDataVector.rows_ flags) = true ->
  all_recognized flags.
Proof.
  intros Hall jv jobs f. unfold ObsDataVector.cell.
  destruct (ObsDataVector.rows_ flags !! jv) as [r|] eqn:Hr; [|done]. intros Hf.
  rewrite forallb_forall in Hall.
  assert (In r (ObsDataVector.rows_ flags)) as Hin
    by (apply list_elem_of_In; eapply list_elem_of_lookup_2; eauto).
  apply Hall in Hin. rewrite forallb_forall in Hin. apply Hin.
  apply list_elem_of_In. eapply list_elem_of_lookup_2; eauto.
Qed.

(** X13: the destructor throws on an unrecognized code.  Under the
    conditions of X6, if some cell of some worker holds a code without a
    counter, the destructor ends on the failed assertion of [print]: its
    starting line is on the trace log, its done line is not. *)
Theorem destructor_fails_on_unrecognized self flags log s jv jobs f :
  QCflags.distinct Q = true ->
  fits self flags = true ->
  peers_fit self = true ->
  records self flags < 2 ^ 64 ->
  In s (shards self flags) ->
  (jv < length (observed_ self))%nat ->
  (jobs < fst s)%nat ->
  ObsDataVector.get (snd s) jv jobs = Ok f ->
  QCflags.is_recognized Q f = false ->
  exists text,
    snd (QCmanager_dtor self flags log) = Err (AssertionFailed text)
    /\ Log.trace (fst (QCmanager_dtor self flags log))
       = Log.trace log ++ ["QCmanager::~QCmanager starting"].
Proof.
  intros Hd Hfit Hpeers Hrec Hin Hjv Hjobs Hget Hf.
  assert (checked self flags jv = false) as Hc.
  { eapply unrecognized_unchecked; try done. by apply global_counts_total. }
  pose proof (print_loop_trace self flags (length (observed_ self)) (Log.info log)
                ltac:(done) ltac:(intros; by apply global_counts_total)) as Htrace.
  unfold QCmanager_dtor, trace_line, print. cbn [Log.trace Log.info].
  destruct (print_loop _ _ (Log.info log)) as [out [[]|e]].
  - destruct Htrace as [Hall _]. rewrite Hall in Hc; done.
  - destruct Htrace as (jj & text & _ & -> & _). by exists text.
Qed.

End Filter.

(** ** The scenarios of the specification, evaluated *)

Example scenario_A :
  QCmanager_ctor sample_imiss sample_rmiss sample_codes obsdb_A ""
    (Some flags_A) (Some obserr_A)
  = Ok (self_A, flags_A').
Proof. reflexivity. Qed.

Example scenario_B :
  postFilter sample_dmiss sample_codes self_A hofx_B flags_A' = Ok flags_A'.
Proof. reflexivity. Qed.

Example scenario_C :
  exists flags',
    postFilter sample_dmiss sample_codes self_C hofx_C flags_C = Ok flags'
    /\ ObsDataVector.rows_ flags' = [[6; 0]]
    /\ print sample_codes self_C flags' []
       = (["QC Radiosonde air_temperature: 1 H(x) failed.";
           "QC Radiosonde air_temperature: 1 passed out of 2 observations."],
          Ok tt).
Proof. eexists. split; [reflexivity|]. split; reflexivity. Qed.

Example scenario_D :
  QCmanager_ctor sample_imiss sample_rmiss sample_codes obsdb_D ""
    (Some flags_D) (Some obserr_D)
  = Err (AssertionFailed "obserr->nvars() == observed_.size()").
Proof. reflexivity. Qed.

Example scenario_E :
  print sample_codes self_C flags_E []
  = (["QC Radiosonde air_temperature: 1 passed out of 2 observations."],
     Err (AssertionFailed
            "ipass + imiss + ipreq + ibnds + iwhit + iblck + iherr + ithin + ifgss + ignss == iobs")).
Proof. reflexivity. Qed.

(** The same unrecognized code seen from the other worker: nothing is
    written on rank 1, and the assertion fails there as well. *)
Example scenario_E_peer :
  print sample_codes self_M flags_C []
  = ([],
     Err (AssertionFailed
            "ipass + imiss + ipreq + ibnds + iwhit + iblck + iherr + ithin + ifgss + ignss == iobs")).
Proof. reflexivity. Qed.

(** ** The properties at the sample data *)

Lemma initializer_contract_witness :
  exists self flags',
    QCmanager_ctor sample_imiss sample_rmiss sample_codes obsdb_A ""
      (Some flags_A) (Some obserr_A) = Ok (self, flags')
    /\ forall jv jobs,
         (jv < ObsDataVector.nvars flags_A)%nat ->
         (jobs < ObsDataVector.nlocs flags_A)%nat ->
         exists f o e f',
           ObsDataVector.get flags_A jv jobs = Ok f
           /\ ObsDataVector.get
                (ObsDataVector_from obsdb_A (ObsSpace.obsvariables obsdb_A) "ObsValue")
                jv jobs = Ok o
           /\ ObsDataVector.get obserr_A jv jobs = Ok e
           /\ ObsDataVector.get flags' jv jobs = Ok f'
           /\ (f' = QCflags.missing sample_codes <->
                 f = sample_imiss \/ SFeqb o sample_rmiss = true
                 \/ SFeqb e sample_rmiss = true \/ f = QCflags.missing sample_codes)
           /\ (f <> sample_imiss -> SFeqb o sample_rmiss = false ->
                SFeqb e sample_rmiss = false -> f' = f).
Proof.
  apply (initializer_contract sample_imiss sample_rmiss sample_codes obsdb_A ""
           flags_A obserr_A); reflexivity.
Defined.

Lemma updater_contract_witness :
  exists flags',
    postFilter sample_dmiss sample_codes self_C hofx_C flags_C = Ok flags'
    /\ forall jv jobs,
         (jv < length (observed_ self_C))%nat ->
         (jobs < ObsSpace.nlocs (obsdb_ self_C))%nat ->
         exists f h f',
           ObsDataVector.get flags_C jv jobs = Ok f
           /\ ObsVector_get hofx_C (length (observed_ self_C) * jobs + jv)%nat = Ok h
           /\ ObsDataVector.get flags' jv jobs = Ok f'
           /\ (f = QCflags.pass sample_codes -> SFeqb h sample_dmiss = true ->
                f' = QCflags.Hfailed sample_codes)
           /\ (f = QCflags.pass sample_codes -> SFeqb h sample_dmiss = false ->
                f' = QCflags.pass sample_codes)
           /\ (f <> QCflags.pass sample_codes -> f' = f).
Proof.
  apply (updater_contract sample_dmiss sample_codes self_C hofx_C flags_C); reflexivity.
Defined.

(** C3 as stated does not hold: at scenario E the assertion of the first
    variable fails, and the stream has that variable's summary line in
    it. *)
Lemma check_follows_emission :
  ~ checked_before_emitting sample_codes self_C flags_E 0 [].
Proof.
  unfold checked_before_emitting. intros H. specialize (H eq_refl).
  vm_compute in H. discriminate H.
Qed.

Lemma completeness_checked_after_emitting_witness :
  (forall jj os', (jj < length (observed_ self_C))%nat ->
     exists text,
       print_var sample_codes self_C flags_E jj os'
       = (os' ++ emitted sample_codes self_C flags_E jj,
          ASSERT (checked sample_codes self_C flags_E jj) text))
  /\ match print sample_codes self_C flags_E [] with
     | (out, Ok _) =>
         (forall jj, (jj < length (observed_ self_C))%nat ->
            checked sample_codes self_C flags_E jj = true)
         /\ out = [] ++ concat (map (emitted sample_codes self_C flags_E)
                                    (seq 0 (length (observed_ self_C))))
     | (out, Err e) =>
         exists jj text,
           (jj < length (observed_ self_C))%nat
           /\ e = AssertionFailed text
           /\ checked sample_codes self_C flags_E jj = false
           /\ (forall i, (i < jj)%nat -> checked sample_codes self_C flags_E i = true)
           /\ out = [] ++ concat (map (emitted sample_codes self_C flags_E)
                                      (seq 0 (Datatypes.S jj)))
     end.
Proof.
  apply (completeness_checked_after_emitting sample_codes self_C flags_E []);
    reflexivity.
Defined.

Lemma never_downgraded_witness :
  run_ops sample_imiss sample_rmiss sample_dmiss sample_codes
    [Initialize obsdb_A "" (Some obserr_A); Update self_A hofx_B] flags_P
  = Ok flags_P'
  /\ exists f',
       ObsDataVector.get flags_P' 0 0 = Ok f'
       /\ f' <> QCflags.pass sample_codes
       /\ (f' = 2 \/ f' = QCflags.missing sample_codes).
Proof.
  split; [reflexivity|].
  apply (proj2 (never_downgraded sample_imiss sample_rmiss sample_dmiss sample_codes
                  eq_refl ltac:(vm_compute; lia))
           [Initialize obsdb_A "" (Some obserr_A); Update self_A hofx_B]
           flags_P flags_P' 0%nat 0%nat 2);
    [reflexivity|reflexivity|vm_compute; lia].
Defined.

Lemma construction_checks_dimensions_witness :
  (dims_agree obsdb_D flags_D obserr_D = false ->
     exists text,
       QCmanager_ctor sample_imiss sample_rmiss sample_codes obsdb_D ""
         (Some flags_D) (Some obserr_D) = Err (AssertionFailed text))
  /\ (dims_agree obsdb_D flags_D obserr_D = true ->
       exists self flags',
         QCmanager_ctor sample_imiss sample_rmiss sample_codes obsdb_D ""
           (Some flags_D) (Some obserr_D) = Ok (self, flags')).
Proof.
  apply (construction_checks_dimensions sample_imiss sample_rmiss sample_codes
           obsdb_D "" flags_D obserr_D); reflexivity.
Defined.

Lemma unrecognized_code_fails_witness :
  (forall c, count_flag sample_codes 99 c = c)
  /\ exists text,
       snd (print sample_codes self_M flags_C []) = Err (AssertionFailed text).
Proof.
  apply (unrecognized_code_fails sample_codes self_M flags_C []
           (2%nat, flags_E) 0%nat 1%nat 99);
    [reflexivity|reflexivity|reflexivity|reflexivity|right; left; reflexivity
    |simpl; lia|simpl; lia|reflexivity|reflexivity].
Defined.

Lemma updater_idempotent_witness :
  exists flags',
    postFilter sample_dmiss sample_codes self_C hofx_C flags_C = Ok flags'
    /\ postFilter sample_dmiss sample_codes self_C hofx_C flags' = Ok flags'.
Proof.
  apply (updater_idempotent sample_dmiss sample_codes self_C hofx_C flags_C);
    [reflexivity|simpl; lia].
Defined.

Lemma initializer_idempotent_witness :
  exists self flags',
    QCmanager_ctor sample_imiss sample_rmiss sample_codes obsdb_A ""
      (Some flags_P) (Some obserr_A) = Ok (self, flags')
    /\ QCmanager_ctor sample_imiss sample_rmiss sample_codes obsdb_A ""
         (Some flags') (Some obserr_A) = Ok (self, flags')
    /\ forall jv jobs,
         ObsDataVector.get flags_P jv jobs = Ok (QCflags.missing sample_codes) ->
         ObsDataVector.get flags' jv jobs = Ok (QCflags.missing sample_codes).
Proof.
  apply (initializer_idempotent sample_imiss sample_rmiss sample_codes obsdb_A ""
           flags_P obserr_A); reflexivity.
Defined.

Lemma empty_shard_witness :
  let self := mkQCmanager obsdb_0 "" [] (ObsSpace.obsvariables obsdb_0) in
  QCmanager_ctor sample_imiss sample_rmiss sample_codes obsdb_0 ""
    (Some flags_0) (Some obserr_0) = Ok (self, flags_0)
  /\ postFilter sample_dmiss sample_codes self hofx_B flags_0 = Ok flags_0
  /\ print sample_codes self flags_0 []
     = ([] ++ map (fun name =>
                     ("QC " +:+ ObsDataVector.obstype flags_0 +:+ " " +:+ name +:+ ": ")
                     +:+ "0 passed out of 0 observations.")
                  (ObsSpace.obsvariables obsdb_0),
        Ok tt).
Proof.
  apply (empty_shard sample_imiss sample_rmiss sample_dmiss sample_codes obsdb_0 ""
           flags_0 obserr_0 hofx_B []); reflexivity.
Defined.


(** ** The further properties at the sample data *)

Lemma constructor_establishes_fit_witness :
  fits self_A flags_A' = true
  /\ obsdb_ self_A = obsdb_A
  /\ observed_ self_A = ObsSpace.obsvariables obsdb_A
  /\ ObsDataVector.obstype flags_A' = ObsDataVector.obstype flags_A.
Proof.
  apply (constructor_establishes_fit sample_imiss sample_rmiss sample_codes
           obsdb_A "" flags_A (Some obserr_A) self_A flags_A'); reflexivity.
Defined.

Lemma postFilter_runs_keep_fit_witness :
  exists flags',
    run_ops sample_imiss sample_rmiss sample_dmiss sample_codes
      (map (Update self_C) [hofx_C; hofx_C2]) flags_C = Ok flags'
    /\ fits self_C flags' = true
    /\ ObsDataVector.obstype flags' = ObsDataVector.obstype flags_C.
Proof.
  apply (postFilter_runs_keep_fit sample_imiss sample_rmiss sample_dmiss sample_codes
           self_C [hofx_C; hofx_C2] flags_C);
    [reflexivity|repeat constructor; simpl; lia].
Defined.

Lemma postFilter_runs_commute_witness :
  exists flags',
    run_ops sample_imiss sample_rmiss sample_dmiss sample_codes
      [Update self_C hofx_C; Update self_C hofx_C2] flags_C = Ok flags'
    /\ run_ops sample_imiss sample_rmiss sample_dmiss sample_codes
         [Update self_C hofx_C2; Update self_C hofx_C] flags_C = Ok flags'.
Proof.
  apply (postFilter_runs_commute sample_imiss sample_rmiss sample_dmiss sample_codes
           self_C hofx_C hofx_C2 flags_C);
    [vm_compute; lia|reflexivity|simpl; lia|simpl; lia].
Defined.

Lemma missing_precedes_Hfailed_witness :
  ObsDataVector.get flags_A' 0 2 = Ok (QCflags.missing sample_codes)
  /\ ObsDataVector.get flags_A' 0 2 = Ok (QCflags.missing sample_codes).
Proof.
  apply (missing_precedes_Hfailed sample_imiss sample_rmiss sample_dmiss sample_codes
           obsdb_A "" flags_A obserr_A self_A flags_A' hofx_B flags_A'
           0%nat 2%nat 0 f_two sample_rmiss);
    [vm_compute; lia|reflexivity|reflexivity|simpl; lia|simpl; lia
    |reflexivity|reflexivity|reflexivity|right; right; reflexivity].
Defined.

Lemma global_counts_are_exact_witness :
  Counts.mk 4 3 0 0 0 0 0 0 0 0 0 = exact_counts sample_codes self_M flags_C 0.
Proof.
  apply (global_counts_are_exact sample_codes self_M flags_C 0%nat
           (Counts.mk 4 3 0 0 0 0 0 0 0 0 0)); reflexivity.
Defined.

Lemma print_succeeds_iff_recognized_witness :
  snd (print sample_codes self_C flags_C' []) = Ok tt <->
  (forall jj s f,
     (jj < length (observed_ self_C))%nat ->
     In s (shards self_C flags_C') -> In f (column (fst s) (snd s) jj) ->
     QCflags.is_recognized sample_codes f = true).
Proof.
  apply (print_succeeds_iff_recognized sample_codes self_C flags_C' []); reflexivity.
Defined.

Lemma recognized_codes_kept_witness : all_recognized sample_codes flags_P'.
Proof.
  apply (recognized_codes_kept sample_imiss sample_rmiss sample_dmiss sample_codes
           [Initialize obsdb_A "" (Some obserr_A); Update self_A hofx_B]
           flags_P flags_P');
    [apply all_recognized_forallb; reflexivity|reflexivity].
Defined.

Lemma cycle_completes_witness :
  exists flags1 flags2,
    QCmanager_ctor_traced sample_imiss sample_rmiss sample_codes obsdb_A ""
      (Some flags_A) (Some obserr_A) log_0
    = (Log.mk ["QCmanager::QCmanager starting "; "QCmanager::QCmanager done"] [],
       Ok (self_A, flags1))
    /\ postFilter_traced sample_dmiss sample_codes self_A hofx_B flags1
         (Log.mk ["QCmanager::QCmanager starting "; "QCmanager::QCmanager done"] [])
       = (Log.mk ["QCmanager::QCmanager starting "; "QCmanager::QCmanager done";
                  "QCmanager postFilter"; "QCmanager postFilter done"] [],
          Ok flags2)
    /\ QCmanager_dtor sample_codes self_A flags2
         (Log.mk ["QCmanager::QCmanager starting "; "QCmanager::QCmanager done";
                  "QCmanager postFilter"; "QCmanager postFilter done"] [])
       = (Log.mk ["QCmanager::QCmanager starting "; "QCmanager::QCmanager done";
                  "QCmanager postFilter"; "QCmanager postFilter done";
                  "QCmanager::~QCmanager starting"; "QCmanager::~QCmanager done"]
                 (fst (print sample_codes self_A flags2 [])),
          Ok tt).
Proof.
  apply (cycle_completes sample_imiss sample_rmiss sample_dmiss sample_codes
           obsdb_A "" flags_A obserr_A hofx_B log_0);
    [reflexivity|reflexivity|reflexivity|reflexivity|simpl; lia
    |apply all_recognized_forallb; reflexivity|reflexivity
    |intros pf []|reflexivity].
Defined.

Lemma global_counts_same_on_every_worker_witness :
  global_counts sample_codes self_M flags_C 0
  = global_counts sample_codes self_M0 flags_E 0
  /\ checked sample_codes self_M flags_C 0 = checked sample_codes self_M0 flags_E 0.
Proof.
  apply (global_counts_same_on_every_worker sample_codes self_M flags_C self_M0 flags_E
           0%nat);
    [apply perm_swap|reflexivity|reflexivity].
Defined.

Lemma report_numbers_add_up_witness :
  let g := Counts.mk 2 1 0 0 0 0 0 1 0 0 0 in
  Counts.ipass g + Counts.imiss g + Counts.ipreq g + Counts.ibnds g
  + Counts.iwhit g + Counts.iblck g + Counts.iherr g + Counts.ithin g
  + Counts.ifgss g + Counts.ignss g
  = Counts.iobs g.
Proof.
  apply (report_numbers_add_up sample_codes self_C flags_C' 0%nat
           (Counts.mk 2 1 0 0 0 0 0 1 0 0 0)); reflexivity.
Defined.

Lemma destructor_fails_on_unrecognized_witness :
  exists text,
    snd (QCmanager_dtor sample_codes self_C flags_E log_0) = Err (AssertionFailed text)
    /\ Log.trace (fst (QCmanager_dtor sample_codes self_C flags_E log_0))
       = Log.trace log_0 ++ ["QCmanager::~QCmanager starting"].
Proof.
  apply (destructor_fails_on_unrecognized sample_codes self_C flags_E log_0
           (2%nat, flags_E) 0%nat 1%nat 99);
    [reflexivity|reflexivity|reflexivity|reflexivity|left; reflexivity
    |simpl; lia|simpl; lia|reflexivity|reflexivity].
Defined.
